(** * The Alpha Contradiction Engine: signals, contradictions, consensus

    A shallow embedding of [tradingagents/alpha]: the [Signal] record, the
    eight signal extractors, the contradiction detector and the consensus
    scorer of [contradiction_engine.py], the per-extractor fault isolation of
    [runner.py] and the interpretation helper of [continuous_monitor.py].

    Numeric model.  Python [float]s are modelled by exact rationals [Q]; a
    decimal literal of the source denotes its exact decimal value, [==] on
    floats is [Qeq], and [round(x, n)] is rounding to [n] decimals with ties
    to even.  Rounding error of binary floating point is outside the model;
    the concrete inputs used below are evaluated in binary64 as well (module
    [binary64]).

    The [data_points] dictionary of a signal is an audit trail that no
    function of the engine reads; it is left out of [Signal], and the
    statements that only fill it are left out of the scoring functions.  The
    one-line [reasoning] text that an extractor builds from its input formats
    floats for display; it is kept abstract (class [Reasoning]). *)

From Stdlib Require Import QArith Qround Qabs Qminmax Lqa Lia Ascii String.
From Stdlib Require Floats.PrimFloat.
From stdpp Require Import gmap strings list option sorting.

Local Open Scope Q_scope.

(** ** Floats as rationals *)

#[global] Instance Qeq_decision (x y : Q) : Decision (x == y) := Qeq_dec x y.

#[global] Instance Qlt_decision (x y : Q) : Decision (x < y) :=
  match Qlt_le_dec x y with
  | left H => left H
  | right H => right (Qle_not_lt _ _ H)
  end.

#[global] Instance Qle_decision (x y : Q) : Decision (x <= y) :=
  match Qlt_le_dec y x with
  | left H => right (Qlt_not_le _ _ H)
  | right H => left H
  end.

(** [sum(xs)]: Python folds from the integer [0], left to right. *)
Definition sum (xs : list Q) : Q := foldl Qplus 0 xs.

(** Nearest integer, ties to even. *)
Definition round_half_even (x : Q) : Z :=
  let f := Qfloor x in
  match Qcompare (x - inject_Z f) (1 # 2) with
  | Lt => f
  | Gt => (f + 1)%Z
  | Eq => if Z.even f then f else (f + 1)%Z
  end.

(** [round(x, ndigits)] *)
Definition round (x : Q) (ndigits : nat) : Q :=
  let scale := inject_Z (10 ^ Z.of_nat ndigits) in
  inject_Z (round_half_even (x * scale)) / scale.

(** ** Strings *)

Definition ascii_upper (c : ascii) : ascii :=
  let n := nat_of_ascii c in
  if (97 <=? n)%nat && (n <=? 122)%nat then ascii_of_nat (n - 32) else c.

Definition ascii_lower (c : ascii) : ascii :=
  let n := nat_of_ascii c in
  if (65 <=? n)%nat && (n <=? 90)%nat then ascii_of_nat (n + 32) else c.

Fixpoint string_map (f : ascii → ascii) (s : string) : string :=
  match s with
  | EmptyString => EmptyString
  | String c s' => String (f c) (string_map f s')
  end.

(** [s.upper()] and [s.lower()] on ASCII text. *)
Definition upper : string → string := string_map ascii_upper.
Definition lower : string → string := string_map ascii_lower.

(** [needle in hay] *)
Fixpoint contains (needle hay : string) : bool :=
  String.prefix needle hay ||
  match hay with
  | EmptyString => false
  | String _ hay' => contains needle hay'
  end.

(** ** signals/signal_types.py *)

Inductive Direction := bullish | bearish | neutral.

#[global] Instance Direction_eq_dec : EqDecision Direction.
Proof. solve_decision. Defined.

Definition direction_str (d : Direction) : string :=
  match d with
  | bullish => "bullish"
  | bearish => "bearish"
  | neutral => "neutral"
  end.

Record Signal := mkSignal {
  name : string;
  direction : Direction;
  strength : Q;
  confidence : Q;
  reasoning : string
}.

(** ** contradiction_engine.py *)

Module Severity.
Inductive t := high | medium | low.
End Severity.

#[global] Instance Severity_eq_dec : EqDecision Severity.t.
Proof. solve_decision. Defined.

(** The labels of [contradiction_severity] and [alpha_potential]. *)
Module Level.
Inductive t := high | medium | low | none.
End Level.

#[global] Instance Level_eq_dec : EqDecision Level.t.
Proof. solve_decision. Defined.

Module Consensus.
Inductive t := bullish | bearish | mixed | neutral.
End Consensus.

#[global] Instance Consensus_eq_dec : EqDecision Consensus.t.
Proof. solve_decision. Defined.

Record Contradiction := mkContradiction {
  signal_a : Signal;
  signal_b : Signal;
  severity : Severity.t;
  category : string;
  description : string;
  historical_resolution : string
}.

(** One row of the rule table:
    (signal_a_name, signal_b_name, min_strength, category, resolution_note). *)
Record Rule := mkRule {
  name_a : string;
  name_b : string;
  min_str : Q;
  rule_category : string;
  resolution : string
}.

Definition _CONTRADICTION_RULES : list Rule := [
  mkRule "insider_activity" "valuation" 0.3 "smart_money_divergence"
    "Insider activity is more predictive than analyst ratings";
  mkRule "technical" "valuation" 0.4 "technical_fundamental_divergence"
    "Fundamentals tend to dominate over 3-6 months; technicals over 1-4 weeks";
  mkRule "options" "momentum" 0.3 "flow_vs_trend"
    "Options flow often leads momentum by 1-2 weeks";
  mkRule "insider_activity" "momentum" 0.3 "insider_vs_market"
    "Insiders have long-term edge; momentum can persist short-term";
  mkRule "insider_activity" "options" 0.3 "smart_money_vs_flow"
    "Both are informed-trader signals; conflict suggests uncertainty";
  mkRule "macro" "momentum" 0.3 "macro_vs_micro"
    "Macro headwinds eventually override single-stock momentum";
  mkRule "earnings" "valuation" 0.3 "earnings_risk"
    "Upcoming earnings can resolve valuation debates quickly";
  mkRule "news_sentiment" "insider_activity" 0.3 "news_vs_insider"
    "Positive news with insider selling suggests insiders know more than headlines";
  mkRule "news_sentiment" "momentum" 0.3 "news_vs_price"
    "Positive news but declining price suggests market has already priced it in"
].

Definition _classify_severity (combined_strength conf_a conf_b : Q) : Severity.t :=
  let avg_conf := (conf_a + conf_b) / 2 in
  let score := combined_strength * 0.6 + avg_conf * 0.4 in
  if decide (0.6 <= score) then Severity.high
  else if decide (0.4 <= score) then Severity.medium
  else Severity.low.

Definition describe (sig_a sig_b : Signal) : string :=
  upper (name sig_a) +:+ " says " +:+ direction_str (direction sig_a)
    +:+ " (" +:+ reasoning sig_a +:+ ") "
    +:+ "but " +:+ upper (name sig_b) +:+ " says " +:+ direction_str (direction sig_b)
    +:+ " (" +:+ reasoning sig_b +:+ ")".

Definition _check_pair (sig_a sig_b : Signal) (min_strength : Q)
    (category resolution : string) : option Contradiction :=
  if decide (direction sig_a = neutral ∨ direction sig_b = neutral) then None
  else if decide (direction sig_a = direction sig_b) then None
  else if decide (strength sig_a < min_strength ∨ strength sig_b < min_strength) then None
  else if decide (confidence sig_a < 0.2 ∧ confidence sig_b < 0.2) then None
  else
    let combined_strength := (strength sig_a + strength sig_b) / 2 in
    let severity :=
      _classify_severity combined_strength (confidence sig_a) (confidence sig_b) in
    Some (mkContradiction sig_a sig_b severity category
            (describe sig_a sig_b) resolution).

(** [{s.name: s for s in signals}]: a later signal replaces an earlier one of
    the same name. *)
Definition signal_map (signals : list Signal) : gmap string Signal :=
  foldl (λ m s, <[name s := s]> m) ∅ signals.

(** What one rule contributes to the list under construction. *)
Definition apply_rule (m : gmap string Signal) (r : Rule) : option Contradiction :=
  sig_a ← m !! name_a r;
  sig_b ← m !! name_b r;
  _check_pair sig_a sig_b (min_str r) (rule_category r) (resolution r).

(** The contradictions appended by the loop of [detect], in rule order. *)
Definition collect (signals : list Signal) : list Contradiction :=
  omap (apply_rule (signal_map signals)) _CONTRADICTION_RULES.

(** Sort key [{"high": 0, "medium": 1, "low": 2}[c.severity]]. *)
Definition severity_key (c : Contradiction) : nat :=
  match severity c with
  | Severity.high => 0
  | Severity.medium => 1
  | Severity.low => 2
  end.

(** [list.sort(key=...)] is a stable sort; a stable insertion sort stands for
    it. *)
Fixpoint insert_by {A} (key : A → nat) (x : A) (l : list A) : list A :=
  match l with
  | [] => [x]
  | y :: l' => if (key x <=? key y)%nat then x :: l else y :: insert_by key x l'
  end.

Fixpoint sort_by {A} (key : A → nat) (l : list A) : list A :=
  match l with
  | [] => []
  | x :: l' => insert_by key x (sort_by key l')
  end.

Definition detect (signals : list Signal) : list Contradiction :=
  sort_by severity_key (collect signals).

Definition _overall_severity (contradictions : list Contradiction) : Level.t :=
  match contradictions with
  | [] => Level.none
  | _ =>
    let severities := severity <$> contradictions in
    if decide (Severity.high ∈ severities) then Level.high
    else if decide (Severity.medium ∈ severities) then Level.medium
    else Level.low
  end.

Definition _alpha_potential (total high medium : nat) : Level.t :=
  if decide (2 ≤ high ∨ (1 ≤ high ∧ 2 ≤ medium))%nat then Level.high
  else if decide (1 ≤ high ∨ 2 ≤ medium ∨ 3 ≤ total)%nat then Level.medium
  else if decide (1 ≤ total)%nat then Level.low
  else Level.none.

Record SummaryEntry := mkSummaryEntry {
  summary_direction : Direction;
  summary_strength : Q;
  summary_confidence : Q;
  summary_reasoning : string
}.

Record Score := mkScore {
  consensus_direction : Consensus.t;
  consensus_strength : Q;
  bullish_count : nat;
  bearish_count : nat;
  neutral_count : nat;
  contradiction_count : nat;
  contradiction_severity : Level.t;
  alpha_potential : Level.t;
  key_contradictions : list string;
  signal_summary : gmap string SummaryEntry
}.

(** [[s for s in signals if s.direction == d and s.confidence > 0]] *)
Definition with_direction (d : Direction) (signals : list Signal) : list Signal :=
  filter (λ s, direction s = d ∧ 0 < confidence s) signals.

(** [sum(s.strength * s.confidence for s in side)] *)
Definition weight (side : list Signal) : Q :=
  sum ((λ s, strength s * confidence s) <$> side).

Definition bull_weight (signals : list Signal) : Q := weight (with_direction bullish signals).
Definition bear_weight (signals : list Signal) : Q := weight (with_direction bearish signals).
Definition total_weight (signals : list Signal) : Q :=
  bull_weight signals + bear_weight signals.

(** The local pair [(consensus_direction, consensus_strength)] of
    [score_overall], before the strength is rounded for the result. *)
Definition consensus (signals : list Signal) : Consensus.t * Q :=
  let bull_weight := bull_weight signals in
  let bear_weight := bear_weight signals in
  let total_weight := bull_weight + bear_weight in
  if decide (total_weight == 0) then (Consensus.neutral, 0)
  else if decide (bear_weight * 1.3 < bull_weight) then
    (Consensus.bullish, bull_weight / (total_weight + 0.001))
  else if decide (bull_weight * 1.3 < bear_weight) then
    (Consensus.bearish, bear_weight / (total_weight + 0.001))
  else
    (Consensus.mixed, 1 - Qabs (bull_weight - bear_weight) / (total_weight + 0.001)).

Definition count_severity (sev : Severity.t) (contradictions : list Contradiction) : nat :=
  length (filter (λ c, severity c = sev) contradictions).

Definition score_overall (signals : list Signal) (contradictions : list Contradiction)
    : Score :=
  let bullish := with_direction bullish signals in
  let bearish := with_direction bearish signals in
  let neutral := with_direction neutral signals in
  let '(consensus_direction, consensus_strength) := consensus signals in
  let high_count := count_severity Severity.high contradictions in
  let med_count := count_severity Severity.medium contradictions in
  let contradiction_severity := _overall_severity contradictions in
  let alpha_potential := _alpha_potential (length contradictions) high_count med_count in
  let signal_summary :=
    foldl (λ m s, <[name s :=
                      mkSummaryEntry (direction s) (strength s) (confidence s) (reasoning s)]> m)
          ∅ signals in
  mkScore consensus_direction (round consensus_strength 2)
          (length bullish) (length bearish) (length neutral)
          (length contradictions) contradiction_severity alpha_potential
          (description <$> take 3 contradictions) signal_summary.

(** ** Exceptions

    A call either returns a value or raises an [Exception] whose text
    [str(exc)] is recorded. *)

Inductive Result (A : Type) := Ok (a : A) | Raise (exc : string).
Arguments Ok {A} a.
Arguments Raise {A} exc.

#[global] Instance Result_ret : MRet Result := λ A, Ok.
#[global] Instance Result_bind : MBind Result := λ A B f m,
  match m with
  | Ok a => f a
  | Raise exc => Raise exc
  end.

(** ** data_collectors: the typed snapshots read by the extractors *)

(** A [pandas.DataFrame] of floats: its number of rows and its columns. *)
Record DataFrame := mkDataFrame {
  nrows : nat;
  columns : gmap string (list Q)
}.

(** [df[col]]; a missing column is a [KeyError]. *)
Definition getitem (df : DataFrame) (col : string) : Result (list Q) :=
  match columns df !! col with
  | Some series => Ok series
  | None => Raise ("'" +:+ col +:+ "'")
  end.

(** [series.iloc[-k]] for [k >= 1]. *)
Definition iloc_neg (series : list Q) (k : nat) : Result Q :=
  if decide (k ≤ length series)%nat then
    match series !! (length series - k)%nat with
    | Some x => Ok x
    | None => Raise "single positional indexer is out-of-bounds"
    end
  else Raise "single positional indexer is out-of-bounds".

(** [series.iloc[-k:]] *)
Definition tail_rows (series : list Q) (k : nat) : list Q :=
  drop (length series - k) series.

(** [series.mean()] *)
Definition mean (xs : list Q) : Q := sum xs / inject_Z (Z.of_nat (length xs)).

(** The fields of [StockData] that the extractors read.  An insider
    transaction is represented by its text [str(tx)], an earnings surprise by
    its dictionary of floats. *)
Record StockData := mkStockData {
  current_price : Q;
  history_30d : option DataFrame;
  ma_50 : Q;
  ma_200 : Q;
  rsi_14 : Q;
  analyst_target_mean : Q;
  analyst_count : Z;
  insider_transactions : list string;
  insider_net_shares : Z;
  insiders_pct_held : Q;
  institutions_pct_held : Q;
  put_call_ratio_oi : Q;
  atm_call_iv : Q;
  atm_put_iv : Q;
  iv_skew : Q;
  next_earnings_date : option Z;
  days_to_earnings : option Z;
  last_4_surprises : list (gmap string Q);
  pe_trailing : Q;
  pe_forward : Q;
  pb : Q;
  ev_ebitda : Q;
  beta : Q;
  week52_high : Q;
  week52_low : Q
}.

Record MacroData := mkMacroData {
  vix : Q;
  vix_5d_change : Q;
  treasury_10y : Q;
  treasury_2y : Q;
  yield_spread_10y2y : Q;
  gold_price : Q;
  oil_price : Q;
  sector_returns_1m : gmap string Q;
  stock_sector : string;
  sector_vs_spy : Q
}.

(** A scraped news item; the extractors only count them. *)
Record NewsItem := mkNewsItem {
  item_title : string;
  item_importance : string
}.

Record NewsData := mkNewsData {
  ticker_news : list NewsItem;
  macro_news : list NewsItem;
  ticker_sentiment_score : Q;
  macro_sentiment_score : Q;
  news_volume : Z;
  high_importance_count : Z
}.

(** The display text built by each module's [_build_reasoning]. *)
Class Reasoning := {
  technical_reasoning : StockData → Direction → string;
  valuation_reasoning : StockData → Direction → string;
  insider_reasoning : StockData → Direction → string;
  earnings_reasoning : StockData → Direction → string;
  options_reasoning : StockData → Direction → string;
  momentum_reasoning : StockData → Direction → string;
  macro_reasoning : MacroData → Direction → string;
  news_reasoning : NewsData → Direction → string
}.

(** [len(data.history_30d)] when the frame is not [None]. *)
Definition history_len (data : StockData) : option nat := nrows <$> history_30d data.

(** ** signals/technical_signal.py *)

Module technical_signal.
Section extractor.
Context {R : Reasoning}.

Definition _assess_confidence (data : StockData) : Q :=
  let score := 0 in
  let score :=
    match history_30d data with
    | Some h => if decide (20 ≤ nrows h)%nat then score + 0.4 else score
    | None => score
    end in
  let score := if decide (0 < rsi_14 data) then score + 0.2 else score in
  let score := if decide (0 < ma_50 data) then score + 0.2 else score in
  let score := if decide (0 < ma_200 data) then score + 0.2 else score in
  score.

Definition _score_rsi (data : StockData) (scores : list Q) : list Q :=
  if decide (rsi_14 data <= 0) then scores
  else if decide (80 < rsi_14 data) then scores ++ [-0.8]
  else if decide (70 < rsi_14 data) then scores ++ [-0.5]
  else if decide (rsi_14 data < 20) then scores ++ [0.8]
  else if decide (rsi_14 data < 30) then scores ++ [0.5]
  else if decide (45 <= rsi_14 data ∧ rsi_14 data <= 55) then scores ++ [0.0]
  else if decide (55 < rsi_14 data) then scores ++ [0.2]
  else scores ++ [-0.2].

Definition _score_moving_averages (data : StockData) (scores : list Q) : list Q :=
  let price := current_price data in
  if decide (price <= 0) then scores
  else
    let scores :=
      if decide (0 < ma_50 data) then
        let pct_vs_50 := (price - ma_50 data) / ma_50 data in
        if decide (0.10 < pct_vs_50) then scores ++ [0.4]
        else if decide (0 < pct_vs_50) then scores ++ [0.2]
        else if decide (-0.10 < pct_vs_50) then scores ++ [-0.2]
        else scores ++ [-0.4]
      else scores in
    let scores :=
      if decide (0 < ma_200 data) then
        let pct_vs_200 := (price - ma_200 data) / ma_200 data in
        if decide (0.15 < pct_vs_200) then scores ++ [0.5]
        else if decide (0 < pct_vs_200) then scores ++ [0.3]
        else if decide (-0.15 < pct_vs_200) then scores ++ [-0.3]
        else scores ++ [-0.5]
      else scores in
    if decide (0 < ma_50 data ∧ 0 < ma_200 data) then
      if decide (ma_200 data < ma_50 data) then scores ++ [0.3]
      else scores ++ [-0.3]
    else scores.

Definition _score_52w_position (data : StockData) (scores : list Q) : list Q :=
  if decide (week52_high data <= 0 ∨ week52_low data <= 0) then scores
  else
    let price := current_price data in
    let range_52w := week52_high data - week52_low data in
    if decide (range_52w <= 0) then scores
    else
      let position := (price - week52_low data) / range_52w in
      if decide (0.95 < position) then scores ++ [-0.3]
      else if decide (position < 0.2) then scores ++ [0.3]
      else scores.

(** The list [scores] after the three scoring calls of [extract]. *)
Definition collected (data : StockData) : list Q :=
  let scores := [] in
  let scores := _score_rsi data scores in
  let scores := _score_moving_averages data scores in
  let scores := _score_52w_position data scores in
  scores.

Definition extract (data : StockData) : Signal :=
  let confidence := _assess_confidence data in
  let scores := collected data in
  match scores with
  | [] => mkSignal "technical" neutral 0.0 0.0 "Insufficient technical data"
  | _ =>
    let avg_score := sum scores / inject_Z (Z.of_nat (length scores)) in
    let direction :=
      if decide (0.1 < avg_score) then bullish
      else if decide (avg_score < -0.1) then bearish
      else neutral in
    let strength := Qmin (Qabs avg_score) 1.0 in
    mkSignal "technical" direction (round strength 2) (round confidence 2)
             (technical_reasoning data direction)
  end.
End extractor.
End technical_signal.

(** ** signals/valuation_signal.py *)

Module valuation_signal.
Section extractor.
Context {R : Reasoning}.

Definition _assess_confidence (data : StockData) : Q :=
  let score := 0 in
  let score :=
    if decide (0 < pe_trailing data ∨ 0 < pe_forward data) then score + 0.3 else score in
  let score := if decide (0 < analyst_target_mean data) then score + 0.3 else score in
  let score := if decide (0 < pb data) then score + 0.2 else score in
  let score := if decide (0 < ev_ebitda data) then score + 0.2 else score in
  score.

Definition _score_pe (data : StockData) (scores : list Q) : list Q :=
  let pe := if decide (0 < pe_forward data) then pe_forward data else pe_trailing data in
  if decide (pe <= 0) then scores
  else
    let scores :=
      if decide (0 < pe_forward data ∧ 0 < pe_trailing data) then
        let pe_contraction := pe_forward data / pe_trailing data in
        if decide (pe_contraction < 0.7) then scores ++ [0.4]
        else if decide (pe_contraction < 0.9) then scores ++ [0.2]
        else scores
      else scores in
    if decide (60 < pe) then scores ++ [-0.6]
    else if decide (40 < pe) then scores ++ [-0.3]
    else if decide (25 < pe) then scores ++ [0.0]
    else if decide (15 < pe) then scores ++ [0.2]
    else scores ++ [0.4].

Definition _score_analyst_target (data : StockData) (scores : list Q) : list Q :=
  if decide (analyst_target_mean data <= 0 ∨ current_price data <= 0) then scores
  else
    let upside := (analyst_target_mean data - current_price data) / current_price data in
    let weight := if decide (10 ≤ analyst_count data)%Z then 1.0 else 0.6 in
    if decide (0.30 < upside) then scores ++ [0.7 * weight]
    else if decide (0.15 < upside) then scores ++ [0.4 * weight]
    else if decide (0.05 < upside) then scores ++ [0.2 * weight]
    else if decide (-0.10 < upside) then scores ++ [0.0]
    else if decide (-0.20 < upside) then scores ++ [-0.3 * weight]
    else scores ++ [-0.6 * weight].

Definition _score_pb (data : StockData) (scores : list Q) : list Q :=
  if decide (pb data <= 0) then scores
  else if decide (15 < pb data) then scores ++ [-0.3]
  else if decide (8 < pb data) then scores ++ [-0.1]
  else if decide (pb data < 1.5) then scores ++ [0.3]
  else scores.

Definition _score_ev_ebitda (data : StockData) (scores : list Q) : list Q :=
  if decide (ev_ebitda data <= 0) then scores
  else if decide (30 < ev_ebitda data) then scores ++ [-0.3]
  else if decide (20 < ev_ebitda data) then scores ++ [-0.1]
  else if decide (ev_ebitda data < 10) then scores ++ [0.3]
  else scores.

Definition collected (data : StockData) : list Q :=
  let scores := [] in
  let scores := _score_pe data scores in
  let scores := _score_analyst_target data scores in
  let scores := _score_pb data scores in
  let scores := _score_ev_ebitda data scores in
  scores.

Definition extract (data : StockData) : Signal :=
  let confidence := _assess_confidence data in
  let scores := collected data in
  match scores with
  | [] => mkSignal "valuation" neutral 0.0 0.0 "Insufficient valuation data"
  | _ =>
    let avg_score := sum scores / inject_Z (Z.of_nat (length scores)) in
    let direction :=
      if decide (0.1 < avg_score) then bullish
      else if decide (avg_score < -0.1) then bearish
      else neutral in
    let strength := Qmin (Qabs avg_score) 1.0 in
    mkSignal "valuation" direction (round strength 2) (round confidence 2)
             (valuation_reasoning data direction)
  end.
End extractor.
End valuation_signal.

(** ** signals/insider_signal.py *)

Module insider_signal.
Section extractor.
Context {R : Reasoning}.

Definition _assess_confidence (data : StockData) : Q :=
  let score := 0 in
  let score :=
    match insider_transactions data with
    | [] => score
    | _ =>
      let score := score + 0.5 in
      if decide (5 ≤ length (insider_transactions data))%nat then score + 0.2 else score
    end in
  let score := if decide (0 < insiders_pct_held data) then score + 0.15 else score in
  let score := if decide (0 < institutions_pct_held data) then score + 0.15 else score in
  Qmin score 1.0.

Definition _score_net_shares (data : StockData) (scores : list Q) : list Q :=
  if decide (insider_net_shares data = 0%Z ∧ insider_transactions data = []) then scores
  else if decide (0 < insider_net_shares data)%Z then scores ++ [0.7]
  else if decide (insider_net_shares data < 0)%Z then
    let tx_count :=
      match insider_transactions data with
      | [] => 1%Z
      | txs => Z.of_nat (length txs)
      end in
    let sell_intensity :=
      Qmin (inject_Z (Z.abs (insider_net_shares data))
              / inject_Z (Z.max tx_count 1) / 10000) 1.0 in
    scores ++ [-0.3 - 0.4 * sell_intensity]
  else scores.

(** The [(buys, sells)] counters after the loop over the transactions. *)
Definition count_transactions (txs : list string) : nat * nat :=
  foldl (λ '(buys, sells) tx,
           let text := lower tx in
           if contains "purchase" text || contains "buy" text then (S buys, sells)
           else if contains "sale" text || contains "sell" text then (buys, S sells)
           else (buys, sells))
        (0%nat, 0%nat) txs.

Definition _score_transaction_pattern (data : StockData) (scores : list Q) : list Q :=
  match insider_transactions data with
  | [] => scores
  | txs =>
    let '(buys, sells) := count_transactions txs in
    let total := (buys + sells)%nat in
    if decide (total = 0%nat) then scores
    else
      let buy_ratio := inject_Z (Z.of_nat buys) / inject_Z (Z.of_nat total) in
      if decide (0.6 < buy_ratio) then scores ++ [0.6]
      else if decide (0.3 < buy_ratio) then scores ++ [0.1]
      else if decide (buy_ratio < 0.1 ∧ (3 ≤ sells)%nat) then scores ++ [-0.7]
      else if decide (buy_ratio < 0.2) then scores ++ [-0.4]
      else scores
  end.

Definition _score_institutional_ownership (data : StockData) (scores : list Q) : list Q :=
  if decide (0 < insiders_pct_held data) then
    if decide (0.10 < insiders_pct_held data) then scores ++ [0.2] else scores
  else scores.

Definition collected (data : StockData) : list Q :=
  let scores := [] in
  let scores := _score_net_shares data scores in
  let scores := _score_transaction_pattern data scores in
  let scores := _score_institutional_ownership data scores in
  scores.

Definition extract (data : StockData) : Signal :=
  let confidence := _assess_confidence data in
  let scores := collected data in
  match scores with
  | [] => mkSignal "insider_activity" neutral 0.0 0.0 "No insider transaction data available"
  | _ =>
    let avg_score := sum scores / inject_Z (Z.of_nat (length scores)) in
    let direction :=
      if decide (0.1 < avg_score) then bullish
      else if decide (avg_score < -0.1) then bearish
      else neutral in
    let strength := Qmin (Qabs avg_score) 1.0 in
    mkSignal "insider_activity" direction (round strength 2) (round confidence 2)
             (insider_reasoning data direction)
  end.
End extractor.
End insider_signal.

(** ** signals/earnings_signal.py *)

Module earnings_signal.
Section extractor.
Context {R : Reasoning}.

Definition _assess_confidence (data : StockData) : Q :=
  let score := 0 in
  let score :=
    match last_4_surprises data with
    | [] => score
    | l => score + (0.3 + Qmin (inject_Z (Z.of_nat (length l)) * 0.1) 0.4)
    end in
  let score :=
    match next_earnings_date data with
    | Some _ => score + 0.3
    | None => score
    end in
  Qmin score 1.0.

(** The [(beats, misses)] counters after the loop over the surprises;
    [pct = s.get("surprise_pct", 0)]. *)
Definition count_surprises (l : list (gmap string Q)) : nat * nat :=
  foldl (λ '(beats, misses) s,
           let pct := default 0 (s !! "surprise_pct") in
           if decide (0 < pct) then (S beats, misses)
           else if decide (pct < 0) then (beats, S misses)
           else (beats, misses))
        (0%nat, 0%nat) l.

Definition _score_surprise_history (data : StockData) (scores : list Q) : list Q :=
  match last_4_surprises data with
  | [] => scores
  | l =>
    let '(beats, misses) := count_surprises l in
    if decide (beats = length l ∧ 3 ≤ beats)%nat then scores ++ [0.6]
    else if decide (3 ≤ beats)%nat then scores ++ [0.4]
    else if decide (3 ≤ misses)%nat then scores ++ [-0.5]
    else if decide (misses < beats)%nat then scores ++ [0.2]
    else if decide (beats < misses)%nat then scores ++ [-0.2]
    else scores
  end.

Definition _score_earnings_proximity (data : StockData) (scores : list Q) : list Q :=
  match days_to_earnings data with
  | None => scores
  | Some days => if decide (days ≤ 3)%Z then scores ++ [0.0] else scores
  end.

Definition collected (data : StockData) : list Q :=
  let scores := [] in
  let scores := _score_surprise_history data scores in
  let scores := _score_earnings_proximity data scores in
  scores.

Definition extract (data : StockData) : Signal :=
  let confidence := _assess_confidence data in
  let scores := collected data in
  match scores with
  | [] => mkSignal "earnings" neutral 0.0 0.0 "No earnings data available"
  | _ =>
    let avg_score := sum scores / inject_Z (Z.of_nat (length scores)) in
    let direction :=
      if decide (0.1 < avg_score) then bullish
      else if decide (avg_score < -0.1) then bearish
      else neutral in
    let strength := Qmin (Qabs avg_score) 1.0 in
    mkSignal "earnings" direction (round strength 2) (round confidence 2)
             (earnings_reasoning data direction)
  end.
End extractor.
End earnings_signal.

(** ** signals/options_signal.py *)

Module options_signal.
Section extractor.
Context {R : Reasoning}.

Definition _assess_confidence (data : StockData) : Q :=
  let score := 0 in
  let score := if decide (0 < put_call_ratio_oi data) then score + 0.4 else score in
  let score := if decide (0 < atm_call_iv data) then score + 0.3 else score in
  let score := if decide (0 < atm_put_iv data) then score + 0.3 else score in
  score.

Definition _score_put_call_ratio (data : StockData) (scores : list Q) : list Q :=
  if decide (put_call_ratio_oi data <= 0) then scores
  else
    let pcr := put_call_ratio_oi data in
    if decide (pcr < 0.5) then scores ++ [0.6]
    else if decide (pcr < 0.7) then scores ++ [0.3]
    else if decide (pcr < 1.0) then scores ++ [0.0]
    else if decide (pcr < 1.3) then scores ++ [-0.3]
    else scores ++ [-0.6].

Definition _score_iv_skew (data : StockData) (scores : list Q) : list Q :=
  if decide (iv_skew data == 0 ∧ atm_call_iv data <= 0) then scores
  else if decide (0.10 < iv_skew data) then scores ++ [-0.5]
  else if decide (0.03 < iv_skew data) then scores ++ [-0.2]
  else if decide (iv_skew data < -0.05) then scores ++ [0.3]
  else scores ++ [0.0].

(** [_score_iv_level] only records the IV regime among the data points. *)
Definition _score_iv_level (data : StockData) (scores : list Q) : list Q := scores.

Definition collected (data : StockData) : list Q :=
  let scores := [] in
  let scores := _score_put_call_ratio data scores in
  let scores := _score_iv_skew data scores in
  let scores := _score_iv_level data scores in
  scores.

Definition extract (data : StockData) : Signal :=
  let confidence := _assess_confidence data in
  let scores := collected data in
  match scores with
  | [] => mkSignal "options" neutral 0.0 0.0 "No options data available"
  | _ =>
    let avg_score := sum scores / inject_Z (Z.of_nat (length scores)) in
    let direction :=
      if decide (0.1 < avg_score) then bullish
      else if decide (avg_score < -0.1) then bearish
      else neutral in
    let strength := Qmin (Qabs avg_score) 1.0 in
    mkSignal "options" direction (round strength 2) (round confidence 2)
             (options_reasoning data direction)
  end.
End extractor.
End options_signal.

(** ** signals/momentum_signal.py

    This module indexes the price frame, so its scoring functions can raise
    ([KeyError] for a missing column, [IndexError] for a short series). *)

Module momentum_signal.
Section extractor.
Context {R : Reasoning}.

Definition _assess_confidence (data : StockData) : Q :=
  match history_30d data with
  | None => 0.0
  | Some h =>
    if decide (nrows h < 10)%nat then 0.0
    else
      let score := 0.4 in
      let score := if decide (20 ≤ nrows h)%nat then score + 0.3 else score in
      let score := if decide (is_Some (columns h !! "Volume")) then score + 0.3 else score in
      Qmin score 1.0
  end.

Definition _score_price_trend (data : StockData) (scores : list Q) : Result (list Q) :=
  match history_30d data with
  | None => Ok scores
  | Some h =>
    if decide (nrows h < 5)%nat then Ok scores
    else
      close ← getitem h "Close";
      scores ←
        (if decide (5 ≤ length close)%nat then
           last ← iloc_neg close 1;
           ago ← iloc_neg close 5;
           let ret_5d := (last - ago) / ago in
           Ok (if decide (0.05 < ret_5d) then scores ++ [0.5]
               else if decide (0.02 < ret_5d) then scores ++ [0.3]
               else if decide (-0.02 < ret_5d) then scores ++ [0.0]
               else if decide (-0.05 < ret_5d) then scores ++ [-0.3]
               else scores ++ [-0.5])
         else Ok scores);
      if decide (20 ≤ length close)%nat then
        last ← iloc_neg close 1;
        ago ← iloc_neg close 20;
        let ret_20d := (last - ago) / ago in
        Ok (if decide (0.10 < ret_20d) then scores ++ [0.6]
            else if decide (0.03 < ret_20d) then scores ++ [0.3]
            else if decide (-0.03 < ret_20d) then scores ++ [0.0]
            else if decide (-0.10 < ret_20d) then scores ++ [-0.3]
            else scores ++ [-0.6])
      else Ok scores
  end.

Definition _score_volume_confirmation (data : StockData) (scores : list Q)
    : Result (list Q) :=
  match history_30d data with
  | None => Ok scores
  | Some h =>
    if decide (nrows h < 20)%nat then Ok scores
    else if decide (columns h !! "Volume" = None) then Ok scores
    else
      vol ← getitem h "Volume";
      close ← getitem h "Close";
      let avg_vol_20d := mean (tail_rows vol 20) in
      let recent_vol := mean (tail_rows vol 5) in
      if decide (avg_vol_20d <= 0) then Ok scores
      else
        let vol_ratio := recent_vol / avg_vol_20d in
        last ← iloc_neg close 1;
        ago ← iloc_neg close 5;
        let ret_5d := (last - ago) / ago in
        Ok (if decide (0.01 < ret_5d ∧ 1.3 < vol_ratio) then scores ++ [0.4]
            else if decide (ret_5d < -0.01 ∧ 1.3 < vol_ratio) then scores ++ [-0.4]
            else if decide (0.01 < ret_5d ∧ vol_ratio < 0.7) then scores ++ [-0.1]
            else if decide (ret_5d < -0.01 ∧ vol_ratio < 0.7) then scores ++ [0.1]
            else scores)
  end.

(** [_score_beta_momentum] only records beta among the data points. *)
Definition _score_beta_momentum (data : StockData) (scores : list Q) : Result (list Q) :=
  Ok scores.

Definition collected (data : StockData) : Result (list Q) :=
  let scores := [] in
  scores ← _score_price_trend data scores;
  scores ← _score_volume_confirmation data scores;
  scores ← _score_beta_momentum data scores;
  Ok scores.

Definition extract (data : StockData) : Result Signal :=
  let confidence := _assess_confidence data in
  scores ← collected data;
  match scores with
  | [] => Ok (mkSignal "momentum" neutral 0.0 0.0 "Insufficient momentum data")
  | _ =>
    let avg_score := sum scores / inject_Z (Z.of_nat (length scores)) in
    let direction :=
      if decide (0.1 < avg_score) then bullish
      else if decide (avg_score < -0.1) then bearish
      else neutral in
    let strength := Qmin (Qabs avg_score) 1.0 in
    Ok (mkSignal "momentum" direction (round strength 2) (round confidence 2)
                 (momentum_reasoning data direction))
  end.
End extractor.
End momentum_signal.

(** ** signals/macro_signal.py *)

Module macro_signal.
Section extractor.
Context {R : Reasoning}.

Definition _assess_confidence (macro : MacroData) : Q :=
  let score := 0 in
  let score := if decide (0 < vix macro) then score + 0.3 else score in
  let score := if decide (0 < treasury_10y macro) then score + 0.2 else score in
  let score := if decide (sector_returns_1m macro = ∅) then score else score + 0.3 in
  let score := if decide (0 < gold_price macro) then score + 0.1 else score in
  let score := if decide (0 < oil_price macro) then score + 0.1 else score in
  Qmin score 1.0.

Definition _score_vix (macro : MacroData) (scores : list Q) : list Q :=
  if decide (vix macro <= 0) then scores
  else
    let scores :=
      if decide (30 < vix macro) then scores ++ [-0.6]
      else if decide (20 < vix macro) then scores ++ [-0.2]
      else if decide (vix macro < 13) then scores ++ [0.3]
      else scores in
    if decide (20 < vix_5d_change macro) then scores ++ [-0.4]
    else if decide (vix_5d_change macro < -15) then scores ++ [0.3]
    else scores.

Definition _score_yield_curve (macro : MacroData) (scores : list Q) : list Q :=
  if decide (treasury_10y macro <= 0) then scores
  else if decide (0 < treasury_2y macro) then
    let spread := yield_spread_10y2y macro in
    if decide (spread < -0.5) then scores ++ [-0.5]
    else if decide (spread < 0) then scores ++ [-0.3]
    else if decide (1.0 < spread) then scores ++ [0.2]
    else scores
  else scores.

Definition _avg_return (returns : gmap string Q) (tickers : list string) : option Q :=
  let vals := omap (λ t, returns !! t) tickers in
  match vals with
  | [] => None
  | _ => Some (sum vals / inject_Z (Z.of_nat (length vals)))
  end.

Definition _score_sector_rotation (macro : MacroData) (scores : list Q) : list Q :=
  if decide (sector_returns_1m macro = ∅) then scores
  else
    let scores :=
      if decide (stock_sector macro ≠ "" ∧ ¬ sector_vs_spy macro == 0) then
        if decide (3 < sector_vs_spy macro) then scores ++ [0.4]
        else if decide (1 < sector_vs_spy macro) then scores ++ [0.2]
        else if decide (sector_vs_spy macro < -3) then scores ++ [-0.4]
        else if decide (sector_vs_spy macro < -1) then scores ++ [-0.2]
        else scores
      else scores in
    let defensive := ["XLU"; "XLP"; "XLV"] in
    let cyclical := ["XLK"; "XLY"; "XLI"; "XLF"] in
    let def_avg := _avg_return (sector_returns_1m macro) defensive in
    let cyc_avg := _avg_return (sector_returns_1m macro) cyclical in
    match def_avg, cyc_avg with
    | Some def_avg, Some cyc_avg =>
      let rotation := cyc_avg - def_avg in
      if decide (3 < rotation) then scores ++ [0.3]
      else if decide (rotation < -3) then scores ++ [-0.3]
      else scores
    | _, _ => scores
    end.

Definition collected (macro : MacroData) : list Q :=
  let scores := [] in
  let scores := _score_vix macro scores in
  let scores := _score_yield_curve macro scores in
  let scores := _score_sector_rotation macro scores in
  scores.

Definition extract (data : StockData) (macro : MacroData) : Signal :=
  let confidence := _assess_confidence macro in
  let scores := collected macro in
  match scores with
  | [] => mkSignal "macro" neutral 0.0 0.0 "Insufficient macro data"
  | _ =>
    let avg_score := sum scores / inject_Z (Z.of_nat (length scores)) in
    let direction :=
      if decide (0.1 < avg_score) then bullish
      else if decide (avg_score < -0.1) then bearish
      else neutral in
    let strength := Qmin (Qabs avg_score) 1.0 in
    mkSignal "macro" direction (round strength 2) (round confidence 2)
             (macro_reasoning macro direction)
  end.
End extractor.
End macro_signal.

(** ** signals/news_signal.py *)

Module news_signal.
Section extractor.
Context {R : Reasoning}.

Definition _assess_confidence (news_data : NewsData) : Q :=
  if decide (news_volume news_data = 0%Z) then 0.0
  else
    let score := 0.4 in
    let score := if decide (10 ≤ news_volume news_data)%Z then score + 0.2 else score in
    let score := if decide (0 < high_importance_count news_data)%Z then score + 0.2 else score in
    let score :=
      if decide (ticker_news news_data ≠ [] ∧ macro_news news_data ≠ [])
      then score + 0.2 else score in
    Qmin score 1.0.

Definition _score_ticker_sentiment (news_data : NewsData) (scores : list Q) : list Q :=
  let ts := ticker_sentiment_score news_data in
  if decide (0.3 < ts) then scores ++ [0.6]
  else if decide (0.1 < ts) then scores ++ [0.3]
  else if decide (ts < -0.3) then scores ++ [-0.6]
  else if decide (ts < -0.1) then scores ++ [-0.3]
  else scores.

Definition _score_macro_sentiment (news_data : NewsData) (scores : list Q) : list Q :=
  let ms := macro_sentiment_score news_data in
  let weight := if decide (0 < high_importance_count news_data)%Z then 2.0 else 1.0 in
  if decide (0.3 < ms) then scores ++ [Qmin (0.5 * weight) 1.0]
  else if decide (0.1 < ms) then scores ++ [Qmin (0.25 * weight) 1.0]
  else if decide (ms < -0.3) then scores ++ [Qmax (-0.5 * weight) (-1.0)]
  else if decide (ms < -0.1) then scores ++ [Qmax (-0.25 * weight) (-1.0)]
  else scores.

Definition _score_volume_anomaly (news_data : NewsData) (scores : list Q) : list Q :=
  if decide (news_volume news_data ≤ 50)%Z then scores
  else
    let combined := ticker_sentiment_score news_data + macro_sentiment_score news_data in
    if decide (0 < combined) then scores ++ [0.3]
    else if decide (combined < 0) then scores ++ [-0.3]
    else scores.

Definition collected (news_data : NewsData) : list Q :=
  let scores := [] in
  let scores := _score_ticker_sentiment news_data scores in
  let scores := _score_macro_sentiment news_data scores in
  let scores := _score_volume_anomaly news_data scores in
  scores.

Definition extract (news_data : NewsData) : Signal :=
  let confidence := _assess_confidence news_data in
  let scores := collected news_data in
  match scores with
  | [] => mkSignal "news_sentiment" neutral 0.0 0.0
                   "No news data available (daemon may not be running)"
  | _ =>
    let avg_score := sum scores / inject_Z (Z.of_nat (length scores)) in
    let direction :=
      if decide (0.1 < avg_score) then bullish
      else if decide (avg_score < -0.1) then bearish
      else neutral in
    let strength := Qmin (Qabs avg_score) 1.0 in
    mkSignal "news_sentiment" direction (round strength 2) (round confidence 2)
             (news_reasoning news_data direction)
  end.
End extractor.
End news_signal.

(** ** runner.py *)

Module runner.

(** The eight extractors imported from [signals], each seen as a call
    that returns a signal or raises. *)
Record Extractors := mkExtractors {
  extract_technical : StockData → Result Signal;
  extract_valuation : StockData → Result Signal;
  extract_insider : StockData → Result Signal;
  extract_earnings : StockData → Result Signal;
  extract_options : StockData → Result Signal;
  extract_momentum : StockData → Result Signal;
  extract_macro : StockData → MacroData → Result Signal;
  extract_news : NewsData → Result Signal
}.

(** The extractors of this development. *)
Definition signals {R : Reasoning} : Extractors := {|
  extract_technical := λ d, Ok (technical_signal.extract d);
  extract_valuation := λ d, Ok (valuation_signal.extract d);
  extract_insider := λ d, Ok (insider_signal.extract d);
  extract_earnings := λ d, Ok (earnings_signal.extract d);
  extract_options := λ d, Ok (options_signal.extract d);
  extract_momentum := momentum_signal.extract;
  extract_macro := λ d m, Ok (macro_signal.extract d m);
  extract_news := λ n, Ok (news_signal.extract n)
|}.

(** One iteration of the loop: [try: signals.append(fn())], and on an
    exception the neutral substitute. *)
Definition step (signals : list Signal) (entry : string * (unit → Result Signal))
    : list Signal :=
  let '(name, fn) := entry in
  match fn () with
  | Ok s => signals ++ [s]
  | Raise exc =>
    signals ++ [mkSignal name neutral 0.0 0.0 ("Extraction failed: " +:+ exc)]
  end.

Definition _extract_all_signals (E : Extractors)
    (stock_data : StockData) (macro_data : MacroData) (news_data : NewsData)
    : list Signal :=
  let extractors := [
    ("technical", λ _ : unit, extract_technical E stock_data);
    ("valuation", λ _ : unit, extract_valuation E stock_data);
    ("insider_activity", λ _ : unit, extract_insider E stock_data);
    ("earnings", λ _ : unit, extract_earnings E stock_data);
    ("options", λ _ : unit, extract_options E stock_data);
    ("momentum", λ _ : unit, extract_momentum E stock_data);
    ("macro", λ _ : unit, extract_macro E stock_data macro_data);
    ("news_sentiment", λ _ : unit, extract_news E news_data)
  ] in
  foldl step [] extractors.

End runner.

(** ** continuous_monitor.py *)

Module continuous_monitor.

Definition consensus_str (d : Consensus.t) : string :=
  match d with
  | Consensus.bullish => "bullish"
  | Consensus.bearish => "bearish"
  | Consensus.mixed => "mixed"
  | Consensus.neutral => "neutral"
  end.

(** [score] is the dictionary built by [score_overall]; all its keys are
    present, so the default of [score.get("contradiction_severity", "none")]
    is never used. *)
Definition _interpret_idea (score : Score) : string :=
  let direction := consensus_direction score in
  let alpha := alpha_potential score in
  let severity := contradiction_severity score in
  if decide (alpha = Level.high ∧ severity = Level.high) then
    "INTERPRETATION: High-conviction contradictions detected. "
    +:+ "Smart money divergence suggests a potential turning point. "
    +:+ "Monitor closely for resolution signal before taking position."
  else if decide (alpha = Level.medium) then
    "INTERPRETATION: Moderate contradictions detected. "
    +:+ "Signals are split — wait for a catalyst (earnings, macro event) "
    +:+ "to break the tie before entering."
  else if decide ((direction = Consensus.bullish ∨ direction = Consensus.bearish)
                  ∧ 0.7 < consensus_strength score) then
    "INTERPRETATION: Strong " +:+ consensus_str direction +:+ " consensus with no major "
    +:+ "contradictions. Trend-following setup — consider "
    +:+ (if decide (direction = Consensus.bullish) then "long" else "short")
    +:+ " exposure."
  else "INTERPRETATION: No clear edge. Wait for stronger signal alignment.".

End continuous_monitor.

(** * Specification vocabulary

    The properties below are stated with these definitions; the ones ending
    in [_as_stated] word a property the way the specification does, to be
    compared with the code. *)

(** The [Signal] contract: strength is a magnitude. *)
Definition nonneg_strength (signals : list Signal) : Prop :=
  ∀ s, s ∈ signals → 0 <= strength s.

(** The four branches of the consensus decision rule. *)
Inductive consensus_case (signals : list Signal) : Consensus.t → Q → Prop :=
  | case_neutral :
      total_weight signals == 0 →
      consensus_case signals Consensus.neutral 0
  | case_bullish :
      ¬ total_weight signals == 0 →
      bear_weight signals * 1.3 < bull_weight signals →
      consensus_case signals Consensus.bullish
        (bull_weight signals / (total_weight signals + 0.001))
  | case_bearish :
      ¬ total_weight signals == 0 →
      ¬ bear_weight signals * 1.3 < bull_weight signals →
      bull_weight signals * 1.3 < bear_weight signals →
      consensus_case signals Consensus.bearish
        (bear_weight signals / (total_weight signals + 0.001))
  | case_mixed :
      ¬ total_weight signals == 0 →
      ¬ bear_weight signals * 1.3 < bull_weight signals →
      ¬ bull_weight signals * 1.3 < bear_weight signals →
      consensus_case signals Consensus.mixed
        (1 - Qabs (bull_weight signals - bear_weight signals)
             / (total_weight signals + 0.001)).


(** An input with bull weight 0.9 and bear weight 0.2. *)
Definition scenario_09_02 : list Signal := [
  mkSignal "technical" bullish 0.9 1.0 "";
  mkSignal "valuation" bearish 0.2 1.0 ""
].

(** The range of the returned consensus strength, branch by branch. *)
Definition strength_range_as_stated (signals : list Signal) (cs : list Contradiction)
    : Prop :=
  let sc := score_overall signals cs in
  let returned := consensus_strength sc in
  (0 <= returned ∧ returned <= 1) ∧
  (total_weight signals == 0 → returned == 0) ∧
  (consensus_direction sc = Consensus.bullish ∨ consensus_direction sc = Consensus.bearish
     → returned < 1) ∧
  (consensus_direction sc = Consensus.mixed → 0 < returned ∧ returned <= 1) ∧
  (∃ z : Z, returned == inject_Z z / 100).

(** One bullish signal and nothing against it. *)
Definition lone_bull : list Signal := [mkSignal "technical" bullish 0.5 0.6 ""].

Definition key_le {A} (key : A → nat) (x y : A) : Prop := (key x ≤ key y)%nat.

Definition key_of_severity (sev : Severity.t) : nat :=
  match sev with
  | Severity.high => 0
  | Severity.medium => 1
  | Severity.low => 2
  end.

(** The conditions under which [_check_pair] keeps a pair. *)
Definition material_opposition (sig_a sig_b : Signal) (min_strength : Q) : Prop :=
  direction sig_a ≠ neutral ∧ direction sig_b ≠ neutral ∧
  direction sig_a ≠ direction sig_b ∧
  min_strength <= strength sig_a ∧ min_strength <= strength sig_b ∧
  ¬ (confidence sig_a < 0.2 ∧ confidence sig_b < 0.2).


(** The scenario of the spec: insider buying against a bearish valuation,
    every other category neutral with zero strength and confidence; [why]
    gives each signal its reasoning text. *)
Definition insider_vs_valuation (why : string → string) : list Signal := [
  mkSignal "technical" neutral 0 0 (why "technical");
  mkSignal "valuation" bearish 0.5 0.6 (why "valuation");
  mkSignal "insider_activity" bullish 0.6 0.5 (why "insider_activity");
  mkSignal "earnings" neutral 0 0 (why "earnings");
  mkSignal "options" neutral 0 0 (why "options");
  mkSignal "momentum" neutral 0 0 (why "momentum");
  mkSignal "macro" neutral 0 0 (why "macro");
  mkSignal "news_sentiment" neutral 0 0 (why "news_sentiment")
].

(** The four messages of the interpretation helper. *)
Definition turning_point_message : string :=
  "INTERPRETATION: High-conviction contradictions detected. Smart money divergence suggests a potential turning point. Monitor closely for resolution signal before taking position.".

Definition wait_for_catalyst_message : string :=
  "INTERPRETATION: Moderate contradictions detected. Signals are split — wait for a catalyst (earnings, macro event) to break the tie before entering.".

Definition trend_following_message (d : Consensus.t) : string :=
  "INTERPRETATION: Strong " +:+ continuous_monitor.consensus_str d
  +:+ " consensus with no major contradictions. Trend-following setup — consider "
  +:+ (match d with Consensus.bullish => "long" | _ => "short" end) +:+ " exposure.".

Definition no_clear_edge_message : string :=
  "INTERPRETATION: No clear edge. Wait for stronger signal alignment.".

(** The eight categories, in the order of the runner. *)
Definition categories : list string := [
  "technical"; "valuation"; "insider_activity"; "earnings";
  "options"; "momentum"; "macro"; "news_sentiment"
].

(** What the eight extractor calls do on the given snapshots, in call order. *)
Definition outcomes (E : runner.Extractors)
    (stock_data : StockData) (macro_data : MacroData) (news_data : NewsData)
    : list (Result Signal) := [
  runner.extract_technical E stock_data;
  runner.extract_valuation E stock_data;
  runner.extract_insider E stock_data;
  runner.extract_earnings E stock_data;
  runner.extract_options E stock_data;
  runner.extract_momentum E stock_data;
  runner.extract_macro E stock_data macro_data;
  runner.extract_news E news_data
].

(** Every extractor names its signal after its own category. *)
Definition well_named (E : runner.Extractors) : Prop :=
  ∀ stock_data macro_data news_data,
    Forall2 (λ category outcome, ∀ s, outcome = Ok s → name s = category)
            categories (outcomes E stock_data macro_data news_data).

(** The signal kept for one category, given what its extractor did. *)
Definition kept_for (category : string) (outcome : Result Signal) (s : Signal) : Prop :=
  match outcome with
  | Ok s' => s = s'
  | Raise exc =>
    s = mkSignal category neutral 0.0 0.0 ("Extraction failed: " +:+ exc)
  end.

(** The signal appended by one iteration of the runner's loop. *)
Definition appended (entry : string * (unit → Result Signal)) : Signal :=
  match entry.2 () with
  | Ok s => s
  | Raise exc => mkSignal entry.1 neutral 0.0 0.0 ("Extraction failed: " +:+ exc)
  end.





(** The reasoning text of each module when it has no detail to show. *)
Definition limited_data : Reasoning := {|
  technical_reasoning := λ _ d, "Technical " +:+ direction_str d +:+ ": limited data";
  valuation_reasoning := λ _ d, "Valuation " +:+ direction_str d +:+ ": limited data";
  insider_reasoning := λ _ d, "Insider " +:+ direction_str d +:+ ": no recent transactions";
  earnings_reasoning := λ _ d, "Earnings " +:+ direction_str d +:+ ": limited data";
  options_reasoning := λ _ d, "Options " +:+ direction_str d +:+ ": limited data";
  momentum_reasoning := λ _ d, "Momentum " +:+ direction_str d +:+ ": limited data";
  macro_reasoning := λ _ d, "Macro " +:+ direction_str d +:+ ": limited data";
  news_reasoning := λ _ d, "News " +:+ direction_str d +:+ ": no recent news"
|}.

(** [StockData()], [MacroData()] and [NewsData()]: the dataclass defaults. *)
Definition empty_frame : DataFrame := mkDataFrame 0 ∅.


Definition default_macro : MacroData := {|
  vix := 0.0; vix_5d_change := 0.0; treasury_10y := 0.0; treasury_2y := 0.0;
  yield_spread_10y2y := 0.0; gold_price := 0.0; oil_price := 0.0;
  sector_returns_1m := ∅; stock_sector := ""; sector_vs_spy := 0.0
|}.

Definition default_news : NewsData := {|
  ticker_news := []; macro_news := [];
  ticker_sentiment_score := 0.0; macro_sentiment_score := 0.0;
  news_volume := 0; high_importance_count := 0
|}.


(** A snapshot in which only the price and the 52-week range are known:
    price 10 in the range 5 .. 100. *)
Definition only_52w_range : StockData := {|
  current_price := 10; history_30d := Some empty_frame;
  ma_50 := 0.0; ma_200 := 0.0; rsi_14 := 0.0;
  analyst_target_mean := 0.0; analyst_count := 0;
  insider_transactions := []; insider_net_shares := 0;
  insiders_pct_held := 0.0; institutions_pct_held := 0.0;
  put_call_ratio_oi := 0.0; atm_call_iv := 0.0; atm_put_iv := 0.0; iv_skew := 0.0;
  next_earnings_date := None; days_to_earnings := None; last_4_surprises := [];
  pe_trailing := 0.0; pe_forward := 0.0; pb := 0.0; ev_ebitda := 0.0; beta := 0.0;
  week52_high := 100; week52_low := 5
|}.

(** A snapshot holding a price history with the given closes and nothing else. *)
Definition with_closes (closes : list Q) : StockData := {|
  current_price := 0.0;
  history_30d := Some (mkDataFrame (length closes) {["Close" := closes]});
  ma_50 := 0.0; ma_200 := 0.0; rsi_14 := 0.0;
  analyst_target_mean := 0.0; analyst_count := 0;
  insider_transactions := []; insider_net_shares := 0;
  insiders_pct_held := 0.0; institutions_pct_held := 0.0;
  put_call_ratio_oi := 0.0; atm_call_iv := 0.0; atm_put_iv := 0.0; iv_skew := 0.0;
  next_earnings_date := None; days_to_earnings := None; last_4_surprises := [];
  pe_trailing := 0.0; pe_forward := 0.0; pb := 0.0; ev_ebitda := 0.0; beta := 0.0;
  week52_high := 0.0; week52_low := 0.0
|}.

(** Five rows: flat at 100, then a close of 110. *)
Definition five_rows : StockData := with_closes [100; 100; 100; 100; 110].

(** Five rows of a frame that has no [Close] column. *)
Definition no_close_column : StockData := {|
  current_price := 0.0;
  history_30d := Some (mkDataFrame 5 {["Open" := [100; 100; 100; 100; 110]]});
  ma_50 := 0.0; ma_200 := 0.0; rsi_14 := 0.0;
  analyst_target_mean := 0.0; analyst_count := 0;
  insider_transactions := []; insider_net_shares := 0;
  insiders_pct_held := 0.0; institutions_pct_held := 0.0;
  put_call_ratio_oi := 0.0; atm_call_iv := 0.0; atm_put_iv := 0.0; iv_skew := 0.0;
  next_earnings_date := None; days_to_earnings := None; last_4_surprises := [];
  pe_trailing := 0.0; pe_forward := 0.0; pb := 0.0; ev_ebitda := 0.0; beta := 0.0;
  week52_high := 0.0; week52_low := 0.0
|}.

(** Net insider buying on record, but no transaction of the last six months. *)
Definition stale_insider_buying : StockData := {|
  current_price := 0.0; history_30d := Some empty_frame;
  ma_50 := 0.0; ma_200 := 0.0; rsi_14 := 0.0;
  analyst_target_mean := 0.0; analyst_count := 0;
  insider_transactions := []; insider_net_shares := 5000;
  insiders_pct_held := 0.0; institutions_pct_held := 0.0;
  put_call_ratio_oi := 0.0; atm_call_iv := 0.0; atm_put_iv := 0.0; iv_skew := 0.0;
  next_earnings_date := None; days_to_earnings := None; last_4_surprises := [];
  pe_trailing := 0.0; pe_forward := 0.0; pb := 0.0; ev_ebitda := 0.0; beta := 0.0;
  week52_high := 0.0; week52_low := 0.0
|}.

(** An IV skew of 0.2 without the implied volatilities behind it. *)
Definition skew_only : StockData := {|
  current_price := 0.0; history_30d := Some empty_frame;
  ma_50 := 0.0; ma_200 := 0.0; rsi_14 := 0.0;
  analyst_target_mean := 0.0; analyst_count := 0;
  insider_transactions := []; insider_net_shares := 0;
  insiders_pct_held := 0.0; institutions_pct_held := 0.0;
  put_call_ratio_oi := 0.0; atm_call_iv := 0.0; atm_put_iv := 0.0; iv_skew := 0.2;
  next_earnings_date := None; days_to_earnings := None; last_4_surprises := [];
  pe_trailing := 0.0; pe_forward := 0.0; pb := 0.0; ev_ebitda := 0.0; beta := 0.0;
  week52_high := 0.0; week52_low := 0.0
|}.

(** A ticker sentiment of 0.5 with a news volume of zero. *)
Definition sentiment_without_volume : NewsData := {|
  ticker_news := []; macro_news := [];
  ticker_sentiment_score := 0.5; macro_sentiment_score := 0.0;
  news_volume := 0; high_importance_count := 0
|}.

(** The contradiction of the insider-versus-valuation scenario. *)
Definition smart_money_divergence (why : string → string) : Contradiction :=
  let insider := mkSignal "insider_activity" bullish 0.6 0.5 (why "insider_activity") in
  let valuation := mkSignal "valuation" bearish 0.5 0.6 (why "valuation") in
  mkContradiction insider valuation Severity.medium "smart_money_divergence"
    (describe insider valuation)
    "Insider activity is more predictive than analyst ratings".


(** [lo < x < hi] on binary64 floats. *)
Definition within (lo x hi : PrimFloat.float) : bool :=
  PrimFloat.ltb lo x && PrimFloat.ltb x hi.

(** * The rest of the pipeline

    The pure core of [analyze] and of the monitor's scan, and the helpers of
    the data collectors that compute on fetched data.  What a collector
    fetches is an input here: the result of a store query, the return that
    the market data gives for a ticker, and the numbers of keyword matches in
    a news text are parameters.  The pandas operations of [_compute_rsi] and
    [_moving_average] are written out on lists of closes without missing
    values. *)

(** The label of a severity. *)
Definition level_of_severity (sev : Severity.t) : Level.t :=
  match sev with
  | Severity.high => Level.high
  | Severity.medium => Level.medium
  | Severity.low => Level.low
  end.

(** Both fields of a signal are in [0, 1]. *)
Definition in_unit_range (s : Signal) : Prop :=
  (0 <= strength s ∧ strength s <= 1) ∧ (0 <= confidence s ∧ confidence s <= 1).

(** The signal with bullish and bearish exchanged. *)
Definition flip_direction (d : Direction) : Direction :=
  match d with
  | bullish => bearish
  | bearish => bullish
  | neutral => neutral
  end.

Definition flip_signal (s : Signal) : Signal :=
  mkSignal (name s) (flip_direction (direction s)) (strength s) (confidence s)
           (reasoning s).

Definition flip_consensus (d : Consensus.t) : Consensus.t :=
  match d with
  | Consensus.bullish => Consensus.bearish
  | Consensus.bearish => Consensus.bullish
  | d => d
  end.


(** Every column of a frame has one entry per row, as in pandas. *)
Definition rectangular (df : DataFrame) : Prop :=
  ∀ col series, columns df !! col = Some series → length series = nrows df.

(** ** runner.py: analyze

    Phases 2 and 3 of [analyze], on the data that phase 1 collected: the
    signals, the contradictions among them and the score. *)

Module analysis.



End analysis.

(** ** continuous_monitor.py: the scan *)

Module monitor_scan.

(** [_ALPHA_THRESHOLDS = {"high", "medium"}] *)
Definition _ALPHA_THRESHOLDS : list Level.t := [Level.high; Level.medium].

(** One iteration of the loop of [_scan_all_stocks] on the outcome of
    [analyze(ticker)]: the counter [ideas_found] and the interpretations of
    the ideas written so far.  An analysis that raises is logged and
    skipped. *)
Definition scan_step (state : nat * list string) (result : Result Score)
    : nat * list string :=
  let '(ideas_found, written) := state in
  match result with
  | Ok score =>
    if decide (alpha_potential score ∈ _ALPHA_THRESHOLDS) then
      (S ideas_found, written ++ [continuous_monitor._interpret_idea score])
    else (ideas_found, written)
  | Raise exc => (ideas_found, written)
  end.

Definition _scan_all_stocks (results : list (Result Score)) : nat * list string :=
  foldl scan_step (0%nat, []) results.

End monitor_scan.

(** ** data_collectors/news_collector.py *)

Module news_collector.

Definition _IMPORTANCE_WEIGHTS : list (string * Q) :=
  [("high", 2.0); ("medium", 1.0); ("low", 0.5)].

(** [d.get(key, default)] on a dictionary given by its items. *)
Definition get {A : Type} (d : list (string * A)) (key : string) (default : A) : A :=
  match list_find (λ kv, kv.1 = key) d with
  | Some (_, kv) => kv.2
  | None => default
  end.

Section scoring.

(** The numbers of matches of the two keyword patterns in the text of an
    item, [len(_BULLISH_RE.findall(text))] and
    [len(_BEARISH_RE.findall(text))]. *)
Variables bull_count bear_count : NewsItem → nat.

(** One iteration of the loop of [_score_items] on the pair
    [(total_score, total_weight)]. *)
Definition score_step (totals : Q * Q) (item : NewsItem) : Q * Q :=
  let '(total_score, total_weight) := totals in
  let weight := get _IMPORTANCE_WEIGHTS (item_importance item) 1.0 in
  let bull_count := bull_count item in
  let bear_count := bear_count item in
  if decide (bull_count + bear_count = 0)%nat then (total_score, total_weight)
  else
    let item_score :=
      inject_Z (Z.of_nat bull_count - Z.of_nat bear_count)
      / inject_Z (Z.of_nat (bull_count + bear_count)) in
    (total_score + item_score * weight, total_weight + weight).

Definition _score_items (items : list NewsItem) : Q :=
  match items with
  | [] => 0.0
  | _ =>
    let '(total_score, total_weight) := foldl score_step (0.0, 0.0) items in
    if decide (total_weight == 0.0) then 0.0
    else
      let raw := total_score / total_weight in
      Qmax (-1.0) (Qmin 1.0 raw)
  end.

(** [collect], given what the two queries of the store returned, or the
    exception of an unavailable store. *)
Definition collect (queried : Result (list NewsItem * list NewsItem)) : NewsData :=
  match queried with
  | Raise exc => mkNewsData [] [] 0.0 0.0 0 0
  | Ok (ticker_news, macro_news) =>
    let all_items := ticker_news ++ macro_news in
    let high_count :=
      length (filter (λ item, item_importance item = "high") all_items) in
    mkNewsData ticker_news macro_news
               (_score_items ticker_news) (_score_items macro_news)
               (Z.of_nat (length all_items)) (Z.of_nat high_count)
  end.

End scoring.
End news_collector.

(** ** data_collectors/macro_collector.py *)

Module macro_collector.

(** Sector ETF ticker -> human-readable name, in the order of the source. *)
Definition SECTOR_ETFS : list (string * string) := [
  ("XLK", "Technology");
  ("XLF", "Financials");
  ("XLE", "Energy");
  ("XLV", "Healthcare");
  ("XLY", "Consumer Discretionary");
  ("XLP", "Consumer Staples");
  ("XLI", "Industrials");
  ("XLB", "Materials");
  ("XLRE", "Real Estate");
  ("XLC", "Communication Services");
  ("XLU", "Utilities")
].

Definition _SECTOR_TO_ETF : list (string * string) := [
  ("technology", "XLK");
  ("financial services", "XLF");
  ("financials", "XLF");
  ("energy", "XLE");
  ("healthcare", "XLV");
  ("consumer cyclical", "XLY");
  ("consumer discretionary", "XLY");
  ("consumer defensive", "XLP");
  ("consumer staples", "XLP");
  ("industrials", "XLI");
  ("basic materials", "XLB");
  ("materials", "XLB");
  ("real estate", "XLRE");
  ("communication services", "XLC");
  ("utilities", "XLU")
].

(** The ASCII characters that [str.strip()] removes. *)
Definition is_space (c : ascii) : bool :=
  let n := nat_of_ascii c in
  ((9 <=? n)%nat && (n <=? 13)%nat) || ((28 <=? n)%nat && (n <=? 32)%nat).

Fixpoint lstrip (s : string) : string :=
  match s with
  | EmptyString => EmptyString
  | String c s' => if is_space c then lstrip s' else s
  end.

Fixpoint rstrip (s : string) : string :=
  match s with
  | EmptyString => EmptyString
  | String c s' =>
    match rstrip s' with
    | EmptyString => if is_space c then EmptyString else String c EmptyString
    | rest => String c rest
    end
  end.

(** [s.strip()] on ASCII text. *)
Definition strip (s : string) : string := rstrip (lstrip s).

Definition _resolve_sector_etf (stock_sector : string) : string :=
  let normalized := lower (strip stock_sector) in
  news_collector.get _SECTOR_TO_ETF normalized "".

Section collectors.

(** [_one_month_return(ticker_symbol)]: the one-month return that the
    market data gives for a ticker.  The function catches every exception
    and returns 0.0 instead, so the calls below never raise and the
    [except] branch of [_collect_sectors] is not taken. *)
Variable _one_month_return : string → Q.

Definition _collect_sectors (data : MacroData) (stock_sector : string) : MacroData :=
  let spy_return := _one_month_return "SPY" in
  let returns :=
    foldl (λ returns '(etf_ticker, sector_name),
             <[sector_name := round (_one_month_return etf_ticker) 2]> returns)
          (sector_returns_1m data) SECTOR_ETFS in
  let etf_ticker := _resolve_sector_etf stock_sector in
  let sector_vs_spy :=
    if decide (etf_ticker ≠ "") then
      let sector_return :=
        default 0.0 (returns !! news_collector.get SECTOR_ETFS etf_ticker "") in
      round (sector_return - spy_return) 2
    else sector_vs_spy data in
  mkMacroData (vix data) (vix_5d_change data) (treasury_10y data) (treasury_2y data)
              (yield_spread_10y2y data) (gold_price data) (oil_price data)
              returns stock_sector sector_vs_spy.

End collectors.
End macro_collector.

(** ** data_collectors/yfinance_collector.py *)

Module yfinance_collector.

(** [close.diff()]: the first entry has no predecessor and is NaN, here
    [None]. *)
Fixpoint diff_from (prev : Q) (close : list Q) : list (option Q) :=
  match close with
  | [] => []
  | x :: rest => Some (x - prev) :: diff_from x rest
  end.

Definition diff (close : list Q) : list (option Q) :=
  match close with
  | [] => []
  | x :: rest => None :: diff_from x rest
  end.

(** [delta.where(cond, 0.0)]: an entry is kept where the condition holds;
    a comparison with NaN is false. *)
Definition where_ (cond : Q → Prop) `{∀ d, Decision (cond d)}
    (delta : list (option Q)) : list Q :=
  (λ d, match d with
        | Some d => if decide (cond d) then d else 0.0
        | None => 0.0
        end) <$> delta.

(** [series.ewm(alpha=alpha, adjust=False).mean()]: the first value is the
    first entry, and each later one is
    [(1 - alpha) * previous + alpha * entry]. *)
Fixpoint ewm_from (alpha : Q) (prev : Q) (series : list Q) : list Q :=
  match series with
  | [] => []
  | x :: rest =>
    let y := (1 - alpha) * prev + alpha * x in
    y :: ewm_from alpha y rest
  end.

Definition ewm_mean (alpha : Q) (series : list Q) : list Q :=
  match series with
  | [] => []
  | x :: rest => x :: ewm_from alpha x rest
  end.

Definition _compute_rsi (close : list Q) (period : nat) : Result Q :=
  if decide (length close < period + 1)%nat then Ok 0.0
  else
    let delta := diff close in
    let gain := where_ (λ d, 0 < d) delta in
    let loss := Qopp <$> where_ (λ d, d < 0) delta in
    alpha ← (if decide (period = 0%nat) then Raise "float division by zero"
             else Ok (1.0 / inject_Z (Z.of_nat period)));
    let avg_gain := ewm_mean alpha gain in
    let avg_loss := ewm_mean alpha loss in
    last_avg_loss ← iloc_neg avg_loss 1;
    if decide (last_avg_loss == 0) then Ok 100.0
    else
      last_avg_gain ← iloc_neg avg_gain 1;
      let rs := last_avg_gain / last_avg_loss in
      Ok (100.0 - (100.0 / (1.0 + rs))).

(** [close.rolling(window=window).mean().iloc[-1]] is the mean of the last
    [window] entries. *)
Definition _moving_average (close : list Q) (window : nat) : Q :=
  if decide (length close < window)%nat then 0.0
  else mean (tail_rows close window).

End yfinance_collector.

(** No entry of [close.diff()] is positive, and some entry is negative. *)
Definition never_rises (close : list Q) : Prop :=
  Forall (λ d, from_option (λ d, d <= 0) True d) (yfinance_collector.diff close).

Definition never_falls (close : list Q) : Prop :=
  Forall (λ d, from_option (λ d, 0 <= d) True d) (yfinance_collector.diff close).

Definition falls (close : list Q) : Prop :=
  Exists (λ d, from_option (λ d, d < 0) False d) (yfinance_collector.diff close).

(** ** scrapers/bubbleseek_scraper.py *)

Module bubbleseek_scraper.

Definition _map_importance (raw_importance : option Z) (category : string) : string :=
  match raw_importance with
  | Some raw_importance =>
    if decide (7 ≤ raw_importance)%Z then "high"
    else if decide (4 ≤ raw_importance)%Z then "medium"
    else "low"
  | None =>
    if decide (category = "options_anomaly") then "high"
    else if decide (category = "kol") then "medium"
    else "low"
  end.

End bubbleseek_scraper.

(** One bullish and one bearish signal of the same weight. *)
Definition balanced : list Signal := [
  mkSignal "technical" bullish 0.5 0.5 "";
  mkSignal "valuation" bearish 0.5 0.5 ""
].

(** Sixteen closes, each one below the one before. *)
Definition falling_closes : list Q :=
  [116; 115; 114; 113; 112; 111; 110; 109; 108; 107; 106; 105; 104; 103; 102; 101].

(** Market data in which every ticker returned 2.5 percent in a month. *)
Definition flat_market (ticker_symbol : string) : Q := 2.5.

(** * Properties *)

(** ** Sums and rounding *)

Lemma foldl_Qplus_shift (xs : list Q) (a : Q) : foldl Qplus a xs == a + sum xs.
Proof.
  unfold sum. revert a. induction xs as [|x xs IH]; intros a; simpl.
  - lra.
  - rewrite IH, (IH (0 + x)). lra.
Qed.

Lemma sum_cons (x : Q) (xs : list Q) : sum (x :: xs) == x + sum xs.
Proof. unfold sum at 1. simpl. rewrite foldl_Qplus_shift. lra. Qed.

Lemma round_half_even_comp (x y : Q) : x == y → round_half_even x = round_half_even y.
Proof.
  intros E. unfold round_half_even.
  rewrite (Qfloor_comp _ _ E).
  assert (C : Qcompare (x - inject_Z (Qfloor y)) (1 # 2) = Qcompare (y - inject_Z (Qfloor y)) (1 # 2)).
  { apply Qcompare_comp; [rewrite E|]; reflexivity. }
  rewrite C. reflexivity.
Qed.

Lemma round_comp (x y : Q) (n : nat) : x == y → round x n = round y n.
Proof.
  intros E. unfold round.
  rewrite (round_half_even_comp (x * _) (y * inject_Z (10 ^ Z.of_nat n))); [reflexivity|].
  rewrite E. reflexivity.
Qed.

Lemma round_half_even_bounds (a b : Z) (x : Q) :
  inject_Z a <= x → x <= inject_Z b → (a ≤ round_half_even x ≤ b)%Z.
Proof.
  intros Ha Hb. unfold round_half_even.
  pose proof (Qfloor_le x) as Hf.
  pose proof (Qlt_floor x) as Hg.
  assert (a ≤ Qfloor x)%Z as Hlo.
  { apply Z.lt_succ_r. rewrite Zlt_Qlt. unfold Z.succ. eapply Qle_lt_trans; eauto. }
  assert (Qfloor x ≤ b)%Z as Hhi.
  { rewrite Zle_Qle. lra. }
  assert (Hup : 1 # 2 <= x - inject_Z (Qfloor x) → (Qfloor x + 1 ≤ b)%Z).
  { intros Hh. apply Z.le_succ_l. rewrite Zlt_Qlt. lra. }
  destruct (Qcompare_spec (x - inject_Z (Qfloor x)) (1 # 2)) as [E|L|G].
  - destruct (Z.even _); [lia|]. split; [lia|]. apply Hup. lra.
  - lia.
  - split; [lia|]. apply Hup. lra.
Qed.

Lemma round_unit_interval (x : Q) : 0 <= x → x <= 1 → 0 <= round x 2 ∧ round x 2 <= 1.
Proof.
  intros H0 H1. unfold round.
  change (inject_Z (10 ^ Z.of_nat 2)) with (inject_Z 100).
  destruct (round_half_even_bounds 0 100 (x * inject_Z 100)) as [Hl Hu].
  - change (inject_Z 0) with 0. change (inject_Z 100) with 100. lra.
  - change (inject_Z 100) with 100. lra.
  - rewrite Zle_Qle in Hl, Hu.
    change (inject_Z 0) with 0 in Hl. change (inject_Z 100) with 100 in *.
    split.
    + apply Qle_shift_div_l; lra.
    + apply Qle_shift_div_r; lra.
Qed.

(** ** The consensus scorer *)

Lemma weight_nil : weight [] == 0.
Proof. reflexivity. Qed.

Lemma weight_cons (s : Signal) (side : list Signal) :
  weight (s :: side) == strength s * confidence s + weight side.
Proof. unfold weight. rewrite fmap_cons. apply sum_cons. Qed.

Lemma weight_nonneg (d : Direction) (signals : list Signal) :
  nonneg_strength signals → 0 <= weight (with_direction d signals).
Proof.
  unfold with_direction. induction signals as [|s signals IH]; intros Hs.
  - rewrite filter_nil, weight_nil. lra.
  - assert (0 <= weight (filter (λ s, direction s = d ∧ 0 < confidence s) signals)) as IH'.
    { apply IH. intros s' Hin. apply Hs. by right. }
    rewrite filter_cons. destruct (decide _) as [[_ Hc]|_]; [|done].
    rewrite weight_cons.
    assert (0 <= strength s) by (apply Hs; left).
    assert (0 <= strength s * confidence s) by (apply Qmult_le_0_compat; lra).
    lra.
Qed.

Lemma consensus_strength_rounded (signals : list Signal) (cs : list Contradiction) :
  consensus_strength (score_overall signals cs) = round (consensus signals).2 2.
Proof. unfold score_overall. by destruct (consensus signals). Qed.

Lemma consensus_direction_score (signals : list Signal) (cs : list Contradiction) :
  consensus_direction (score_overall signals cs) = (consensus signals).1.
Proof. unfold score_overall. by destruct (consensus signals). Qed.


Lemma consensus_cases (signals : list Signal) :
  consensus_case signals (consensus signals).1 (consensus signals).2.
Proof.
  unfold consensus. fold (total_weight signals).
  repeat case_decide; simpl; by constructor.
Qed.

Lemma scenario_09_02_nonneg : nonneg_strength scenario_09_02.
Proof.
  intros s Hin. unfold scenario_09_02 in Hin.
  repeat (apply elem_of_cons in Hin as [->|Hin]); [..|by apply elem_of_nil in Hin];
    vm_compute; discriminate.
Defined.


Lemma total_weight_nonneg signals :
  nonneg_strength signals →
  0 <= bull_weight signals ∧ 0 <= bear_weight signals.
Proof. intros H. split; by apply weight_nonneg. Qed.


(** C10, counterexample.  One bullish signal of strength 0.5 and confidence
    0.6 puts [score_overall] in the bullish branch with 0.3 / 0.301, which is
    returned as 1.0 after rounding: not strictly below 1. *)
Lemma strength_range_as_stated_fails :
  nonneg_strength lone_bull ∧
  consensus_direction (score_overall lone_bull []) = Consensus.bullish ∧
  consensus_strength (score_overall lone_bull []) == 1 ∧
  ¬ strength_range_as_stated lone_bull [].
Proof.
  split_and!; [|vm_compute; reflexivity..|].
  - intros s Hin. apply list_elem_of_singleton in Hin as ->. simpl. lra.
  - intros (_ & _ & H & _).
    assert (consensus_strength (score_overall lone_bull []) < 1) as Hlt
      by (apply H; left; vm_compute; reflexivity).
    vm_compute in Hlt. discriminate Hlt.
Qed.

Lemma round_lower (a : Z) (x : Q) :
  inject_Z a * (1 # 100) <= x → inject_Z a * (1 # 100) <= round x 2.
Proof.
  intros H. unfold round, Qdiv.
  change (/ inject_Z (10 ^ Z.of_nat 2)) with (1 # 100).
  change (inject_Z (10 ^ Z.of_nat 2)) with 100.
  assert (inject_Z a <= x * 100) as Ha by lra.
  pose proof (Qlt_floor (x * 100)) as Hf.
  destruct (round_half_even_bounds a (Qfloor (x * 100) + 1) (x * 100) Ha) as [Hl _];
    [lra|].
  rewrite Zle_Qle in Hl. lra.
Qed.

(** C10, amended.  For signals of non-negative strength the strength
    returned by [score_overall] is the strength of the branch rounded to two
    decimals and lies in [0, 1].  Before rounding it is 0 when the total
    weight is zero, strictly between 0 and 1 in the bullish and bearish
    branches, and strictly positive and at most 1 in the mixed branch; after
    rounding the mixed strength is still strictly positive. *)
Theorem consensus_strength_range (signals : list Signal) (cs : list Contradiction) :
  nonneg_strength signals →
  let sc := score_overall signals cs in
  let raw := (consensus signals).2 in
  let returned := consensus_strength sc in
  returned = round raw 2 ∧
  (0 <= returned ∧ returned <= 1) ∧
  (total_weight signals == 0 → raw == 0 ∧ returned == 0) ∧
  (consensus_direction sc = Consensus.bullish ∨ consensus_direction sc = Consensus.bearish
     → 0 < raw ∧ raw < 1) ∧
  (consensus_direction sc = Consensus.mixed
     → (0 < raw ∧ raw <= 1) ∧ (0 < returned ∧ returned <= 1)).
Proof.
  intros Hs. cbv zeta.
  destruct (total_weight_nonneg signals Hs) as [Hb Hr].
  rewrite consensus_direction_score, consensus_strength_rounded.
  split; [done|].
  assert (Hraw : 0 <= (consensus signals).2 ∧ (consensus signals).2 <= 1 ∧
    (total_weight signals == 0 → (consensus signals).2 == 0) ∧
    ((consensus signals).1 = Consensus.bullish ∨ (consensus signals).1 = Consensus.bearish
       → 0 < (consensus signals).2 ∧ (consensus signals).2 < 1) ∧
    ((consensus signals).1 = Consensus.mixed
       → 0.85 <= (consensus signals).2 ∧ (consensus signals).2 <= 1)).
  { destruct (consensus_cases signals) as [H0|H0 H1|H0 H1 H2|H0 H1 H2];
      unfold total_weight in *;
      revert Hb Hr H0; try revert H1; try revert H2;
      generalize (bull_weight signals) (bear_weight signals); intros b r; intros.
    - repeat split; intros; try lra; destruct_or?; discriminate.
    - assert (0 < b / (b + r + 0.001) ∧ b / (b + r + 0.001) < 1) as [??].
      { split; [apply Qlt_shift_div_l | apply Qlt_shift_div_r]; lra. }
      repeat split; intros; try lra; try discriminate.
    - assert (0 < r / (b + r + 0.001) ∧ r / (b + r + 0.001) < 1) as [??].
      { split; [apply Qlt_shift_div_l | apply Qlt_shift_div_r]; lra. }
      repeat split; intros; try lra; destruct_or?; try discriminate.
    - assert (0 <= Qabs (b - r) / (b + r + 0.001) ∧
              Qabs (b - r) / (b + r + 0.001) <= 0.15) as [??].
      { split.
        - apply Qle_shift_div_l; [lra|]. pose proof (Qabs_nonneg (b - r)). lra.
        - apply Qle_shift_div_r; [lra|]. apply Qabs_Qle_condition. lra. }
      repeat split; intros; try lra; destruct_or?; try discriminate. }
  destruct Hraw as (Hlo & Hhi & Hz & Hbb & Hm).
  destruct (round_unit_interval _ Hlo Hhi) as [Rlo Rhi].
  repeat split; try done; try (apply Hz; done); try (apply Hbb; done);
    try (apply Hm; done).
  - rewrite (round_comp _ 0); [reflexivity | by apply Hz].
  - destruct Hm as [H85 _]; [done | lra].
  - destruct Hm as [H85 _]; [done|].
    pose proof (round_lower 85 (consensus signals).2) as Hr85.
    change (inject_Z 85) with 85 in Hr85. lra.
Qed.

(** ** The stable sort *)

Section sort_by.
Context {A : Type} (key : A → nat).

Lemma insert_by_perm (x : A) (l : list A) : insert_by key x l ≡ₚ x :: l.
Proof.
  induction l as [|y l IH]; simpl; [done|].
  destruct (key x <=? key y)%nat; [done|].
  rewrite IH. apply Permutation_swap.
Qed.

Lemma sort_by_perm (l : list A) : sort_by key l ≡ₚ l.
Proof.
  induction l as [|x l IH]; simpl; [done|].
  by rewrite insert_by_perm, IH.
Qed.

Lemma insert_by_sorted (x : A) (l : list A) :
  StronglySorted (key_le key) l → StronglySorted (key_le key) (insert_by key x l).
Proof.
  induction 1 as [|y l Hl IH Hy]; simpl.
  - repeat constructor.
  - destruct (Nat.leb_spec (key x) (key y)) as [Hle|Hlt].
    + constructor; [by constructor|].
      constructor; [done|].
      eapply Forall_impl; [exact Hy|]. unfold key_le. intros z ?. lia.
    + constructor; [done|].
      rewrite insert_by_perm. constructor; [|done]. unfold key_le. lia.
Qed.

Lemma sort_by_sorted (l : list A) : StronglySorted (key_le key) (sort_by key l).
Proof.
  induction l as [|x l IH]; simpl; [constructor|]. by apply insert_by_sorted.
Qed.

(** Stability: among the elements of one key, the original order is kept. *)
Lemma insert_by_filter (k : nat) (x : A) (l : list A) :
  filter (λ y, key y = k) (insert_by key x l) = filter (λ y, key y = k) (x :: l).
Proof.
  induction l as [|y l IH]; simpl; [done|].
  destruct (Nat.leb_spec (key x) (key y)) as [Hle|Hlt]; [done|].
  rewrite filter_cons, IH, !filter_cons.
  repeat case_decide; try done; lia.
Qed.

Lemma sort_by_filter (k : nat) (l : list A) :
  filter (λ y, key y = k) (sort_by key l) = filter (λ y, key y = k) l.
Proof.
  induction l as [|x l IH]; simpl; [done|].
  by rewrite insert_by_filter, !filter_cons, IH.
Qed.

Lemma filter_key_below (k j : nat) (l : list A) :
  Forall (λ y, k ≤ key y)%nat l → (j < k)%nat → filter (λ y, key y = j) l = [].
Proof.
  intros Hall Hlt. induction Hall as [|y l Hy _ IH]; [done|].
  rewrite filter_cons, IH. case_decide; [lia|done].
Qed.

(** A list sorted on a key below 3 is its three key classes in a row. *)
Lemma sorted_three_classes (l : list A) :
  StronglySorted (key_le key) l → Forall (λ y, key y < 3)%nat l →
  l = filter (λ y, key y = 0%nat) l ++ filter (λ y, key y = 1%nat) l
        ++ filter (λ y, key y = 2%nat) l.
Proof.
  induction 1 as [|x l Hl IH Hx]; intros Hk; [done|].
  apply Forall_cons in Hk as [Hxk Hk]. specialize (IH Hk).
  rewrite !filter_cons.
  destruct (decide (key x = 0%nat)) as [E0|N0].
  { rewrite E0. simpl. by rewrite <- IH. }
  assert (filter (λ y, key y = 0%nat) l = []) as F0.
  { apply (filter_key_below (key x)); [|lia]. exact Hx. }
  rewrite F0 in IH |- *. simpl in *.
  destruct (decide (key x = 1%nat)) as [E1|N1].
  { rewrite E1. simpl. by rewrite <- IH. }
  assert (filter (λ y, key y = 1%nat) l = []) as F1.
  { apply (filter_key_below (key x)); [|lia]. exact Hx. }
  rewrite F1 in IH |- *. simpl in *.
  case_decide; [|lia]. by rewrite <- IH.
Qed.
End sort_by.

(** ** The contradiction detector *)

Lemma check_pair_Some sig_a sig_b m cat res c :
  _check_pair sig_a sig_b m cat res = Some c ↔
  material_opposition sig_a sig_b m ∧
  c = mkContradiction sig_a sig_b
        (_classify_severity ((strength sig_a + strength sig_b) / 2)
                            (confidence sig_a) (confidence sig_b))
        cat (describe sig_a sig_b) res.
Proof.
  unfold _check_pair, material_opposition.
  repeat case_decide; split; try discriminate.
  all: try (intros [(?&?&?&?&?&?) _]; destruct_or?; destruct_and?; try done; lra).
  - intros [= <-]. repeat split; try tauto; try (apply Qnot_lt_le; tauto).
  - by intros [_ ->].
Qed.

Lemma check_pair_None sig_a sig_b m cat res :
  _check_pair sig_a sig_b m cat res = None ↔ ¬ material_opposition sig_a sig_b m.
Proof.
  destruct (_check_pair sig_a sig_b m cat res) as [c|] eqn:E.
  - apply check_pair_Some in E as [H _]. split; [discriminate|done].
  - split; [|done]. intros _ H.
    assert (is_Some (_check_pair sig_a sig_b m cat res)) as [c Hc].
    { eexists. apply check_pair_Some. split; [done|reflexivity]. }
    congruence.
Qed.


Lemma elem_of_detect (signals : list Signal) (c : Contradiction) :
  c ∈ detect signals ↔ c ∈ collect signals.
Proof. unfold detect. by rewrite sort_by_perm. Qed.

Lemma elem_of_collect (signals : list Signal) (c : Contradiction) :
  c ∈ collect signals ↔
  ∃ r sig_a sig_b,
    r ∈ _CONTRADICTION_RULES ∧
    signal_map signals !! name_a r = Some sig_a ∧
    signal_map signals !! name_b r = Some sig_b ∧
    _check_pair sig_a sig_b (min_str r) (rule_category r) (resolution r) = Some c.
Proof.
  unfold collect. rewrite list_elem_of_omap. unfold apply_rule. split.
  - intros (r & Hr & Hc).
    destruct (signal_map signals !! name_a r) as [a|] eqn:Ea; [|done].
    destruct (signal_map signals !! name_b r) as [b|] eqn:Eb; [|done].
    simpl in Hc. by exists r, a, b.
  - intros (r & a & b & Hr & Ea & Eb & Hc). exists r. split; [done|].
    by rewrite Ea, Eb.
Qed.

(** No two rules of the table share a category label. *)
Lemma rule_category_inj (r r' : Rule) :
  r ∈ _CONTRADICTION_RULES → r' ∈ _CONTRADICTION_RULES →
  rule_category r = rule_category r' → r = r'.
Proof.
  unfold _CONTRADICTION_RULES. intros Hr Hr'.
  repeat (apply elem_of_cons in Hr as [->|Hr]);
    try (by apply elem_of_nil in Hr);
    repeat (apply elem_of_cons in Hr' as [->|Hr']);
    try (by apply elem_of_nil in Hr'); simpl; intros E; try done; discriminate E.
Qed.

(** C2.  Every contradiction returned by [detect] comes from a rule of the
    table whose two signals are both non-neutral, of unequal direction, each
    at least as strong as the rule's floor, and not both of confidence below
    0.2.  Conversely a rule whose pair fails one of these conditions is
    rejected by [_check_pair] and leaves no contradiction of its category in
    the output. *)
Theorem detect_material_opposition (signals : list Signal) :
  (∀ c, c ∈ detect signals →
     ∃ r, r ∈ _CONTRADICTION_RULES ∧ category c = rule_category r ∧
          signal_map signals !! name_a r = Some (signal_a c) ∧
          signal_map signals !! name_b r = Some (signal_b c) ∧
          direction (signal_a c) ≠ neutral ∧ direction (signal_b c) ≠ neutral ∧
          direction (signal_a c) ≠ direction (signal_b c) ∧
          min_str r <= strength (signal_a c) ∧ min_str r <= strength (signal_b c) ∧
          ¬ (confidence (signal_a c) < 0.2 ∧ confidence (signal_b c) < 0.2)) ∧
  (∀ r sig_a sig_b,
     r ∈ _CONTRADICTION_RULES →
     signal_map signals !! name_a r = Some sig_a →
     signal_map signals !! name_b r = Some sig_b →
     direction sig_a = neutral ∨ direction sig_b = neutral ∨
     direction sig_a = direction sig_b ∨
     strength sig_a < min_str r ∨ strength sig_b < min_str r ∨
     (confidence sig_a < 0.2 ∧ confidence sig_b < 0.2) →
     _check_pair sig_a sig_b (min_str r) (rule_category r) (resolution r) = None ∧
     ∀ c, c ∈ detect signals → category c ≠ rule_category r).
Proof.
  split.
  - intros c Hc. apply elem_of_detect, elem_of_collect in Hc
      as (r & a & b & Hr & Ha & Hb & Hc).
    apply check_pair_Some in Hc as [(?&?&?&?&?&?) ->]. simpl.
    exists r. by repeat split.
  - intros r a b Hr Ha Hb Hfail.
    assert (_check_pair a b (min_str r) (rule_category r) (resolution r) = None) as HN.
    { apply check_pair_None. intros (?&?&?&?&?&?).
      destruct_or?; destruct_and?; try done; lra. }
    split; [done|]. intros c Hc Hcat.
    apply elem_of_detect, elem_of_collect in Hc as (r' & a' & b' & Hr' & Ha' & Hb' & Hc).
    assert (r' = r) as ->.
    { apply rule_category_inj; [done..|].
      apply check_pair_Some in Hc as [_ ->]. simpl in Hcat. done. }
    congruence.
Qed.


Lemma filter_severity_key (sev : Severity.t) (l : list Contradiction) :
  filter (λ c, severity c = sev) l
  = filter (λ c, severity_key c = key_of_severity sev) l.
Proof.
  apply list_filter_iff. intros c. unfold severity_key.
  destruct (severity c), sev; simpl; split; intros; try done; lia.
Qed.

Lemma apply_rule_category m r c : apply_rule m r = Some c → category c = rule_category r.
Proof.
  unfold apply_rule. intros H.
  destruct (m !! name_a r) as [a|]; [|done].
  destruct (m !! name_b r) as [b|]; [|done]. simpl in H.
  by apply check_pair_Some in H as [_ ->].
Qed.

Lemma collect_in_rule_order (signals : list Signal) :
  category <$> collect signals `sublist_of` rule_category <$> _CONTRADICTION_RULES.
Proof.
  unfold collect. generalize (signal_map signals) as m. intros m.
  induction _CONTRADICTION_RULES as [|r rules IH]; simpl; [done|].
  destruct (apply_rule m r) as [c|] eqn:E; simpl.
  - rewrite (apply_rule_category _ _ _ E). by apply sublist_skip.
  - by apply sublist_cons.
Qed.

Lemma detect_stable (signals : list Signal) (sev : Severity.t) :
  filter (λ c, severity c = sev) (detect signals)
  = filter (λ c, severity c = sev) (collect signals).
Proof. rewrite !filter_severity_key. apply sort_by_filter. Qed.

(** C7.  The output of [detect] is sorted on the severity key (high, then
    medium, then low) and is a stable rearrangement of the contradictions
    collected in rule order: it is the high ones, then the medium ones, then
    the low ones, each class in the order of the rule table. *)
Theorem detect_sorted_stable (signals : list Signal) :
  StronglySorted (key_le severity_key) (detect signals) ∧
  detect signals ≡ₚ collect signals ∧
  (∀ sev, filter (λ c, severity c = sev) (detect signals)
          = filter (λ c, severity c = sev) (collect signals)) ∧
  detect signals =
    filter (λ c, severity c = Severity.high) (collect signals)
    ++ filter (λ c, severity c = Severity.medium) (collect signals)
    ++ filter (λ c, severity c = Severity.low) (collect signals) ∧
  category <$> collect signals `sublist_of` rule_category <$> _CONTRADICTION_RULES ∧
  (∀ sev, category <$> filter (λ c, severity c = sev) (detect signals)
            `sublist_of` rule_category <$> _CONTRADICTION_RULES).
Proof.
  split_and!.
  - apply sort_by_sorted.
  - apply sort_by_perm.
  - apply detect_stable.
  - rewrite <- !detect_stable, !filter_severity_key.
    apply sorted_three_classes; [apply sort_by_sorted|].
    apply Forall_forall. intros c _. unfold severity_key. destruct (severity c); lia.
  - apply collect_in_rule_order.
  - intros sev. rewrite detect_stable. etrans; [|apply collect_in_rule_order].
    apply fmap_sublist, sublist_filter.
Qed.

(** ** Alpha potential *)

Lemma count_severity_le (sev : Severity.t) (cs : list Contradiction) :
  (count_severity sev cs ≤ length cs)%nat.
Proof. unfold count_severity. apply length_filter. Qed.

Lemma count_high_medium_le (cs : list Contradiction) :
  (count_severity Severity.high cs + count_severity Severity.medium cs ≤ length cs)%nat.
Proof.
  unfold count_severity. induction cs as [|c cs IH]; [done|].
  rewrite !filter_cons. destruct (severity c); repeat case_decide; simpl; try done; lia.
Qed.


(** ** The interpretation helper *)

Lemma overall_severity_high (cs : list Contradiction) :
  _overall_severity cs = Level.high → (1 ≤ count_severity Severity.high cs)%nat.
Proof.
  unfold _overall_severity, count_severity. destruct cs as [|c cs]; [done|].
  case_decide as Hin; [|by repeat case_decide].
  intros _. apply list_elem_of_fmap in Hin as (c' & Hsev & Hin).
  assert (c' ∈ filter (λ c0, severity c0 = Severity.high) (c :: cs)) as Hf.
  { by apply list_elem_of_filter. }
  destruct (filter _ (c :: cs)); [by apply elem_of_nil in Hf | simpl; lia].
Qed.

(** C9.  [_interpret_idea] returns the turning-point message exactly when
    alpha potential and contradiction severity are both high; otherwise the
    wait-for-catalyst message exactly when alpha potential is medium;
    otherwise the trend-following message (which names the direction) exactly
    when the direction is bullish or bearish and the strength exceeds 0.7;
    otherwise the no-clear-edge message.  The result depends on these four
    fields only, and on a score built by [score_overall] the trend-following
    branch is only reached without a high-severity contradiction. *)
Theorem interpret_idea_cases (score : Score) :
  let msg := continuous_monitor._interpret_idea score in
  let d := consensus_direction score in
  let alpha := alpha_potential score in
  let turning := alpha = Level.high ∧ contradiction_severity score = Level.high in
  let waiting := ¬ turning ∧ alpha = Level.medium in
  let trending :=
    ¬ turning ∧ alpha ≠ Level.medium ∧
    (d = Consensus.bullish ∨ d = Consensus.bearish) ∧ 0.7 < consensus_strength score in
  (msg = turning_point_message ↔ turning) ∧
  (msg = wait_for_catalyst_message ↔ waiting) ∧
  (msg = trend_following_message d ↔ trending) ∧
  (msg = no_clear_edge_message ↔ ¬ turning ∧ ¬ waiting ∧ ¬ trending) ∧
  (∀ score',
     consensus_direction score' = d → alpha_potential score' = alpha →
     contradiction_severity score' = contradiction_severity score →
     consensus_strength score' = consensus_strength score →
     continuous_monitor._interpret_idea score' = msg) ∧
  (∀ signals cs, score = score_overall signals cs → trending →
     contradiction_severity score ≠ Level.high).
Proof.
  cbv zeta. unfold continuous_monitor._interpret_idea.
  split_and!.
  1-4: destruct (consensus_direction score);
       repeat case_decide; split; intros; destruct_and?; destruct_or?;
       try discriminate; try done; try tauto.
  - intros score' -> -> -> ->. done.
  - intros signals cs -> (Hnt & Hnm & _) Hsev. apply Hnt. split; [|done].
    revert Hnm Hsev. unfold score_overall. destruct (consensus signals). simpl.
    intros Hnm Hsev. apply overall_severity_high in Hsev.
    revert Hnm. unfold _alpha_potential. repeat case_decide; try done; lia.
Qed.

(** ** The runner *)

Lemma signals_well_named {R : Reasoning} : well_named runner.signals.
Proof.
  intros stock_data macro_data news_data. unfold categories, outcomes. simpl.
  repeat constructor; intros s.
  - intros [= <-]. unfold technical_signal.extract. by destruct (technical_signal.collected _).
  - intros [= <-]. unfold valuation_signal.extract. by destruct (valuation_signal.collected _).
  - intros [= <-]. unfold insider_signal.extract. by destruct (insider_signal.collected _).
  - intros [= <-]. unfold earnings_signal.extract. by destruct (earnings_signal.collected _).
  - intros [= <-]. unfold options_signal.extract. by destruct (options_signal.collected _).
  - unfold momentum_signal.extract.
    destruct (momentum_signal.collected _) as [[|x scores]|exc]; simpl; [| |done];
      by intros [= <-].
  - intros [= <-]. unfold macro_signal.extract. by destruct (macro_signal.collected _).
  - intros [= <-]. unfold news_signal.extract. by destruct (news_signal.collected _).
Qed.

Lemma foldl_step (extractors : list (string * (unit → Result Signal)))
    (signals : list Signal) :
  foldl runner.step signals extractors = signals ++ (appended <$> extractors).
Proof.
  revert signals. induction extractors as [|[category fn] extractors IH]; intros signals.
  - by rewrite app_nil_r.
  - simpl. rewrite IH. unfold runner.step, appended. simpl.
    destruct (fn ()); by rewrite <- app_assoc.
Qed.

(** C8.  Whatever each of the eight extractors does (return or raise),
    [_extract_all_signals] returns a list of eight signals named after the
    eight categories in their fixed order; the signal of an extractor that
    returned is its result, and the signal of one that raised is neutral with
    strength 0.0, confidence 0.0 and the text "Extraction failed: " followed
    by the exception's message. *)
Theorem extract_all_signals_isolates_failures (E : runner.Extractors)
    (stock_data : StockData) (macro_data : MacroData) (news_data : NewsData) :
  well_named E →
  let result := runner._extract_all_signals E stock_data macro_data news_data in
  name <$> result = categories ∧
  Forall3 kept_for categories (outcomes E stock_data macro_data news_data) result.
Proof.
  intros HE. specialize (HE stock_data macro_data news_data). cbv zeta.
  unfold runner._extract_all_signals. rewrite foldl_step.
  unfold outcomes, categories, appended in *. simpl.
  repeat match goal with
         | H : Forall2 _ (_ :: _) (_ :: _) |- _ => apply Forall2_cons in H as [? H]
         end.
  split.
  - repeat f_equal;
      match goal with
      | |- name (match ?o with _ => _ end) = _ => destruct o; simpl; auto
      end.
  - repeat constructor; unfold kept_for;
      match goal with
      | |- match ?o with _ => _ end => destruct o; reflexivity
      end.
Qed.

(** ** The aggregation rule of the extractors *)




(** C5.  Two snapshots on which an extractor returns a signal of confidence 0
    that is not neutral: the technical extractor when only the price and the
    52-week range are known, and the momentum extractor on a price history of
    five rows. *)
Theorem zero_confidence_yet_directional {R : Reasoning} :
  (let s := technical_signal.extract only_52w_range in
   confidence s == 0 ∧ direction s = bullish ∧ strength s == 0.3) ∧
  (∃ s, momentum_signal.extract five_rows = Ok s ∧
        confidence s == 0 ∧ direction s = bullish ∧ strength s == 0.5).
Proof.
  split.
  - cbv zeta. split_and!; vm_compute; reflexivity.
  - eexists. split; [vm_compute; reflexivity|]. split_and!; vm_compute; reflexivity.
Qed.

(** ** Confidence 0 and direction, extractor by extractor *)

Lemma round_zero_small (x : Q) : 0.01 <= x → ¬ round x 2 == 0.
Proof.
  intros Hx Hr. pose proof (round_lower 1 x) as Hl.
  change (inject_Z 1) with 1 in Hl. lra.
Qed.

Lemma valuation_scores_need_data (stock_data : StockData) :
  valuation_signal._assess_confidence stock_data < 0.01 →
  valuation_signal.collected stock_data = [].
Proof.
  unfold valuation_signal._assess_confidence. intros H.
  assert (¬ 0 < pe_trailing stock_data ∧ ¬ 0 < pe_forward stock_data ∧
          ¬ 0 < analyst_target_mean stock_data ∧ ¬ 0 < pb stock_data ∧
          ¬ 0 < ev_ebitda stock_data) as (H1 & H2 & H3 & H4 & H5).
  { repeat case_decide; split_and!; try tauto; intros ?; lra. }
  unfold valuation_signal.collected, valuation_signal._score_pe,
    valuation_signal._score_analyst_target, valuation_signal._score_pb,
    valuation_signal._score_ev_ebitda.
  rewrite (decide_False (P := 0 < pe_forward stock_data)) by done.
  rewrite (decide_True (P := pe_trailing stock_data <= 0)) by lra.
  rewrite (decide_True (P := analyst_target_mean stock_data <= 0 ∨ _)) by (left; lra).
  rewrite (decide_True (P := pb stock_data <= 0)) by lra.
  rewrite (decide_True (P := ev_ebitda stock_data <= 0)) by lra.
  done.
Qed.

Lemma macro_scores_need_data (macro_data : MacroData) :
  macro_signal._assess_confidence macro_data < 0.01 →
  macro_signal.collected macro_data = [].
Proof.
  unfold macro_signal._assess_confidence. intros Hconf.
  assert (¬ 0 < vix macro_data ∧ ¬ 0 < treasury_10y macro_data ∧
          sector_returns_1m macro_data = ∅) as (H1 & H2 & H3).
  { revert Hconf. repeat case_decide; intros Hconf; split_and!; try tauto;
      try (intros ?); exfalso; revert Hconf; apply Qle_not_lt; apply Q.min_glb; lra. }
  unfold macro_signal.collected, macro_signal._score_vix,
    macro_signal._score_yield_curve, macro_signal._score_sector_rotation.
  rewrite (decide_True (P := vix macro_data <= 0)) by lra.
  rewrite (decide_True (P := treasury_10y macro_data <= 0)) by lra.
  rewrite (decide_True (P := sector_returns_1m macro_data = ∅)) by done.
  done.
Qed.

Lemma earnings_confidence_needs_data (stock_data : StockData) :
  earnings_signal._assess_confidence stock_data < 0.01 →
  last_4_surprises stock_data = [] ∧ next_earnings_date stock_data = None.
Proof.
  unfold earnings_signal._assess_confidence.
  destruct (last_4_surprises stock_data) as [|s l];
    destruct (next_earnings_date stock_data) as [date|]; intros H; try done;
    exfalso; revert H; apply Qle_not_lt; apply Q.min_glb; try lra.
  - set (k := inject_Z (Z.of_nat (length (s :: l))) * 0.1).
    assert (0 <= Qmin k 0.4); [|lra].
    apply Q.min_glb; [|lra]. unfold k. apply Qmult_le_0_compat; [|lra].
    change 0 with (inject_Z 0). rewrite <- Zle_Qle. lia.
  - set (k := inject_Z (Z.of_nat (length (s :: l))) * 0.1).
    assert (0 <= Qmin k 0.4); [|lra].
    apply Q.min_glb; [|lra]. unfold k. apply Qmult_le_0_compat; [|lra].
    change 0 with (inject_Z 0). rewrite <- Zle_Qle. lia.
Qed.

(** Three extractors keep confidence 0 for signals that are neutral with
    strength 0: their confidence indicators cover everything they score. *)
Lemma covered_extractors_keep_zero_confidence_neutral {R : Reasoning}
    (stock_data : StockData) (macro_data : MacroData) :
  (let s := valuation_signal.extract stock_data in
   confidence s == 0 → direction s = neutral ∧ strength s == 0) ∧
  (let s := earnings_signal.extract stock_data in
   confidence s == 0 → direction s = neutral ∧ strength s == 0) ∧
  (let s := macro_signal.extract stock_data macro_data in
   confidence s == 0 → direction s = neutral ∧ strength s == 0).
Proof.
  cbv zeta. split_and!.
  - unfold valuation_signal.extract.
    destruct (valuation_signal.collected stock_data) as [|x l] eqn:E; [done|].
    simpl. intros H. exfalso.
    destruct (Qlt_le_dec (valuation_signal._assess_confidence stock_data) 0.01)
      as [Hlt|Hge].
    + by rewrite valuation_scores_need_data in E.
    + by apply round_zero_small in Hge.
  - unfold earnings_signal.extract.
    destruct (earnings_signal.collected stock_data) as [|x l] eqn:E; [done|].
    simpl. intros H.
    destruct (Qlt_le_dec (earnings_signal._assess_confidence stock_data) 0.01)
      as [Hlt|Hge]; [|by apply round_zero_small in Hge].
    apply earnings_confidence_needs_data in Hlt as [Hs Hd].
    revert E. unfold earnings_signal.collected, earnings_signal._score_surprise_history,
      earnings_signal._score_earnings_proximity.
    rewrite Hs. simpl. destruct (days_to_earnings stock_data) as [days|]; [|done].
    case_decide; [|done]. intros [= <- <-]. vm_compute. done.
  - unfold macro_signal.extract.
    destruct (macro_signal.collected macro_data) as [|x l] eqn:E; [done|].
    simpl. intros H. exfalso.
    destruct (Qlt_le_dec (macro_signal._assess_confidence macro_data) 0.01)
      as [Hlt|Hge].
    + by rewrite macro_scores_need_data in E.
    + by apply round_zero_small in Hge.
Qed.

(** The other three extractors share the defect of the technical and the
    momentum extractor: they score inputs that their confidence ignores. *)
Lemma uncovered_extractors_zero_confidence_directional {R : Reasoning} :
  (let s := insider_signal.extract stale_insider_buying in
   confidence s == 0 ∧ direction s = bullish ∧ strength s == 0.7) ∧
  (let s := options_signal.extract skew_only in
   confidence s == 0 ∧ direction s = bearish ∧ strength s == 0.5) ∧
  (let s := news_signal.extract sentiment_without_volume in
   confidence s == 0 ∧ direction s = bullish ∧ strength s == 0.6).
Proof. cbv zeta. split_and!; vm_compute; reflexivity. Qed.

(** ** The concrete inputs in binary64

    The inputs used in the examples of this file, evaluated in IEEE 754
    binary64 as Python does: the comparisons fall on the same side as in the
    rational model, and each value is strictly inside the interval whose
    points round to the two-decimal result. *)

Module binary64.
Import PrimFloat.
Set Warnings "-inexact-float".

(** [scenario_09_02]: the bullish margin holds and 0.9 / 1.101 rounds to 0.82. *)
Example scenario_09_02_binary64 :
  (PrimFloat.ltb (0.2 * 1.3) (0 + 0.9 * 1.0)
   && within 0.815 ((0 + 0.9 * 1.0) / ((0 + 0.9 * 1.0) + (0 + 0.2 * 1.0) + 0.001)) 0.825)%float
  = true.
Proof. vm_compute. reflexivity. Qed.

(** [lone_bull]: 0.3 / 0.301 rounds to 1.0. *)
Example lone_bull_binary64 :
  (within 0.995 ((0 + 0.5 * 0.6) / ((0 + 0.5 * 0.6) + 0 + 0.001)) 1.0)%float = true.
Proof. vm_compute. reflexivity. Qed.

(** [busy_news]: the mean of 0.6, 0.5 and 0.3 rounds to 0.47. *)
Example busy_news_binary64 :
  (within 0.465 ((0 + 0.6 + 0.5 + 0.3) / 3) 0.475)%float = true.
Proof. vm_compute. reflexivity. Qed.

(** [insider_vs_valuation]: the severity score is 0.55 up to rounding error,
    well inside the medium band. *)
Example insider_vs_valuation_binary64 :
  (within 0.545 ((0.6 + 0.5) / 2 * 0.6 + (0.5 + 0.6) / 2 * 0.4) 0.555)%float = true.
Proof. vm_compute. reflexivity. Qed.

(** [only_52w_range] sits in the lowest fifth of its range, and [five_rows]
    gained more than 5% in five days. *)
Example zero_confidence_inputs_binary64 :
  (PrimFloat.ltb ((10 - 5) / (100 - 5)) 0.2
   && PrimFloat.ltb 0.05 ((110 - 100) / 100))%float = true.
Proof. vm_compute. reflexivity. Qed.

End binary64.

(** * Further properties of the engine, the extractors and the collectors *)

(** ** The signal dictionary of the detector *)

Lemma signal_map_snoc (signals : list Signal) (s : Signal) :
  signal_map (signals ++ [s]) = <[name s := s]> (signal_map signals).
Proof. unfold signal_map. by rewrite foldl_app. Qed.

Lemma signal_map_lookup (signals : list Signal) (n : string) :
  signal_map signals !! n = last (filter (λ s, name s = n) signals).
Proof.
  induction signals as [|s signals IH] using rev_ind; [done|].
  rewrite signal_map_snoc, filter_app, filter_cons, filter_nil.
  destruct (decide (name s = n)) as [<-|Hne].
  - by rewrite lookup_insert_eq, last_snoc.
  - by rewrite lookup_insert_ne, app_nil_r.
Qed.

Lemma signal_map_elem_of (signals : list Signal) (n : string) (s : Signal) :
  signal_map signals !! n = Some s → s ∈ signals ∧ name s = n.
Proof.
  rewrite signal_map_lookup. intros H. apply last_Some in H as [l' H].
  assert (s ∈ filter (λ s, name s = n) signals) as Hin.
  { rewrite H. apply elem_of_app. right. left. }
  by apply list_elem_of_filter in Hin as [? ?].
Qed.

Lemma NoDup_fmap_inj_on {A B} (f : A → B) (l : list A) (x y : A) :
  NoDup (f <$> l) → x ∈ l → y ∈ l → f x = f y → x = y.
Proof.
  induction l as [|z l IH]; intros Hnd Hx Hy Hf; [by apply elem_of_nil in Hx|].
  rewrite fmap_cons in Hnd. apply NoDup_cons in Hnd as [Hz Hnd].
  apply elem_of_cons in Hx as [->|Hx]; apply elem_of_cons in Hy as [->|Hy]; try done.
  - exfalso. apply Hz. rewrite Hf. by apply list_elem_of_fmap_2.
  - exfalso. apply Hz. rewrite <- Hf. by apply list_elem_of_fmap_2.
  - by apply IH.
Qed.

Lemma signal_map_lookup_unique (signals : list Signal) (s : Signal) :
  NoDup (name <$> signals) → s ∈ signals → signal_map signals !! name s = Some s.
Proof.
  intros Hnd Hin.
  destruct (signal_map signals !! name s) as [x|] eqn:E.
  - apply signal_map_elem_of in E as [Hx Hn]. f_equal.
    by apply (NoDup_fmap_inj_on name signals).
  - rewrite signal_map_lookup in E. apply last_None in E.
    assert (s ∈ filter (λ x, name x = name s) signals) as Hf
      by (by apply list_elem_of_filter).
    rewrite E in Hf. by apply elem_of_nil in Hf.
Qed.

Lemma signal_map_perm (signals others : list Signal) :
  NoDup (name <$> signals) → signals ≡ₚ others →
  signal_map signals = signal_map others.
Proof.
  intros Hnd Hp.
  assert (Hnd2 : NoDup (name <$> others)) by (by rewrite <- Hp).
  apply map_eq. intros n. apply option_eq. intros s. split; intros H.
  - apply signal_map_elem_of in H as [Hin <-].
    apply signal_map_lookup_unique; [done|]. by rewrite <- Hp.
  - apply signal_map_elem_of in H as [Hin <-].
    apply signal_map_lookup_unique; [done|]. by rewrite Hp.
Qed.

(** X1.  [detect] reads one signal per name, the last of that name in the
    list: both signals of every contradiction it returns are the last of
    their name, so an earlier signal of the same name is never compared. *)
Theorem detect_reads_last_of_name (signals : list Signal) (n : string) :
  signal_map signals !! n = last (filter (λ s, name s = n) signals) ∧
  (∀ c, c ∈ detect signals →
     last (filter (λ s, name s = name (signal_a c)) signals) = Some (signal_a c) ∧
     last (filter (λ s, name s = name (signal_b c)) signals) = Some (signal_b c)).
Proof.
  split; [apply signal_map_lookup|].
  intros c Hc. apply elem_of_detect, elem_of_collect in Hc
    as (r & a & b & _ & Ha & Hb & Hc).
  apply check_pair_Some in Hc as [_ ->]. simpl.
  rewrite <- !signal_map_lookup.
  destruct (signal_map_elem_of _ _ _ Ha) as [_ Hna].
  destruct (signal_map_elem_of _ _ _ Hb) as [_ Hnb].
  by rewrite Hna, Hnb.
Qed.

(** X2.  When the names are distinct, the order of the input does not matter
    to [detect]. *)
Theorem detect_permutation (signals others : list Signal) :
  NoDup (name <$> signals) → signals ≡ₚ others →
  detect signals = detect others.
Proof.
  intros Hnd Hp. unfold detect, collect. by rewrite (signal_map_perm _ _ Hnd Hp).
Qed.

Lemma rule_categories_NoDup : NoDup (rule_category <$> _CONTRADICTION_RULES).
Proof. apply (bool_decide_unpack _). vm_compute. done. Qed.

(** X3.  [detect] returns at most one contradiction per rule: the categories
    of its output are distinct and there are at most nine of them. *)
Theorem detect_one_per_rule (signals : list Signal) :
  NoDup (category <$> detect signals) ∧ (length (detect signals) ≤ 9)%nat.
Proof.
  pose proof (collect_in_rule_order signals) as Hsub.
  assert (Hp : category <$> detect signals ≡ₚ category <$> collect signals).
  { unfold detect. by rewrite sort_by_perm. }
  split.
  - rewrite Hp. eapply sublist_NoDup; [|exact Hsub]. apply rule_categories_NoDup.
  - apply sublist_length in Hsub. apply Permutation_length in Hp.
    rewrite !length_fmap in *. simpl in Hsub. lia.
Qed.

(** X4.  A contradiction needs a bullish and a bearish signal in the input:
    a list with no bullish signal, or with no bearish one, gives none. *)
Theorem detect_needs_both_sides (signals : list Signal) :
  (∀ s, s ∈ signals → direction s ≠ bullish) ∨
  (∀ s, s ∈ signals → direction s ≠ bearish) →
  detect signals = [].
Proof.
  intros H. destruct (detect signals) as [|c l] eqn:E; [done|]. exfalso.
  assert (c ∈ detect signals) as Hc by (rewrite E; left).
  apply elem_of_detect, elem_of_collect in Hc as (r & a & b & _ & Ha & Hb & Hc).
  apply check_pair_Some in Hc as [(Hna & Hnb & Hne & _) _].
  apply signal_map_elem_of in Ha as [Ha _]. apply signal_map_elem_of in Hb as [Hb _].
  destruct H as [H|H]; pose proof (H a Ha); pose proof (H b Hb);
    destruct (direction a), (direction b); done.
Qed.

(** ** The labels of the score *)

Lemma overall_severity_cases (cs : list Contradiction) :
  (_overall_severity cs = Level.high ↔ ∃ c, c ∈ cs ∧ severity c = Severity.high) ∧
  (_overall_severity cs = Level.medium ↔
     (∀ c, c ∈ cs → severity c ≠ Severity.high) ∧
     ∃ c, c ∈ cs ∧ severity c = Severity.medium) ∧
  (_overall_severity cs = Level.low ↔
     cs ≠ [] ∧ ∀ c, c ∈ cs → severity c = Severity.low) ∧
  (_overall_severity cs = Level.none ↔ cs = []).
Proof.
  unfold _overall_severity. destruct cs as [|c0 cs].
  { split_and!; split; try done.
    - intros (c & Hc & _). by apply elem_of_nil in Hc.
    - intros (_ & c & Hc & _). by apply elem_of_nil in Hc.
    - by intros [? _]. }
  assert (Hfm : ∀ sev, sev ∈ severity <$> c0 :: cs
                       ↔ ∃ c, c ∈ c0 :: cs ∧ severity c = sev).
  { intros sev. rewrite list_elem_of_fmap. naive_solver. }
  assert (H0 : c0 ∈ c0 :: cs) by left.
  destruct (decide (Severity.high ∈ severity <$> c0 :: cs)) as [Hh|Hh];
    [|destruct (decide (Severity.medium ∈ severity <$> c0 :: cs)) as [Hm|Hm]];
    rewrite ?Hfm in *.
  - split_and!.
    + split; [intros _; exact Hh | done].
    + split; [discriminate|]. intros [Hno _]. destruct Hh as (c & Hc & E).
      destruct (Hno c Hc E).
    + split; [discriminate|]. intros [_ Hall]. destruct Hh as (c & Hc & E).
      rewrite (Hall c Hc) in E. discriminate.
    + split; discriminate.
  - split_and!.
    + split; [discriminate|]. intros H. destruct (Hh H).
    + split; [|done]. intros _. split; [|exact Hm]. intros c Hc E. apply Hh. eauto.
    + split; [discriminate|]. intros [_ Hall]. destruct Hm as (c & Hc & E).
      rewrite (Hall c Hc) in E. discriminate.
    + split; discriminate.
  - split_and!.
    + split; [discriminate|]. intros H. destruct (Hh H).
    + split; [discriminate|]. intros [_ H]. destruct (Hm H).
    + split; [|done]. intros _. split; [discriminate|]. intros c Hc.
      destruct (severity c) eqn:E; [exfalso; apply Hh; eauto | exfalso; apply Hm; eauto | done].
    + split; discriminate.
Qed.

Lemma sorted_head_minimal (c : Contradiction) (l : list Contradiction) :
  StronglySorted (key_le severity_key) (c :: l) →
  ∀ x, x ∈ c :: l → (severity_key c ≤ severity_key x)%nat.
Proof.
  intros Hs x Hx. apply StronglySorted_inv in Hs as [_ Hall].
  apply elem_of_cons in Hx as [->|Hx]; [done|].
  rewrite Forall_forall in Hall. by apply Hall.
Qed.

(** X5.  [_overall_severity] is the highest severity present: high exactly
    when some contradiction is high, medium exactly when none is high and
    some is medium, low exactly when the list is non-empty and all are low,
    none exactly when the list is empty.  On the output of [detect] it is
    the severity of the first contradiction. *)
Theorem overall_severity_is_maximum (signals : list Signal) (cs : list Contradiction) :
  ((_overall_severity cs = Level.high ↔ ∃ c, c ∈ cs ∧ severity c = Severity.high) ∧
   (_overall_severity cs = Level.medium ↔
      (∀ c, c ∈ cs → severity c ≠ Severity.high) ∧
      ∃ c, c ∈ cs ∧ severity c = Severity.medium) ∧
   (_overall_severity cs = Level.low ↔
      cs ≠ [] ∧ ∀ c, c ∈ cs → severity c = Severity.low) ∧
   (_overall_severity cs = Level.none ↔ cs = [])) ∧
  _overall_severity (detect signals)
  = default Level.none (level_of_severity ∘ severity <$> head (detect signals)).
Proof.
  split; [apply overall_severity_cases|].
  pose proof (sort_by_sorted severity_key (collect signals)) as Hs.
  fold (detect signals) in Hs.
  destruct (detect signals) as [|c l] eqn:E; [done|].
  change (_overall_severity (c :: l) = level_of_severity (severity c)).
  pose proof (sorted_head_minimal c l Hs) as Hmin.
  destruct (overall_severity_cases (c :: l)) as (Hh & Hm & Hl & _).
  assert (Hc : c ∈ c :: l) by left.
  unfold severity_key in Hmin.
  destruct (severity c) eqn:Ec; unfold level_of_severity.
  - apply Hh. eauto.
  - apply Hm. split; [|eauto]. intros x Hx Ex. specialize (Hmin x Hx).
    rewrite Ex in Hmin. lia.
  - apply Hl. split; [done|]. intros x Hx. specialize (Hmin x Hx).
    destruct (severity x); [lia..|done].
Qed.

Lemma count_severity_positive (sev : Severity.t) (cs : list Contradiction) :
  (1 ≤ count_severity sev cs)%nat ↔ ∃ c, c ∈ cs ∧ severity c = sev.
Proof.
  unfold count_severity. split.
  - intros H. destruct (filter _ cs) as [|c l] eqn:E; [simpl in H; lia|].
    exists c. assert (c ∈ filter (λ c, severity c = sev) cs) as Hc by (rewrite E; left).
    by apply list_elem_of_filter in Hc as [? ?].
  - intros (c & Hc & Hs).
    assert (c ∈ filter (λ c, severity c = sev) cs) as Hf by (by apply list_elem_of_filter).
    destruct (filter _ cs); [by apply elem_of_nil in Hf | simpl; lia].
Qed.

Lemma score_labels (signals : list Signal) (cs : list Contradiction) :
  contradiction_severity (score_overall signals cs) = _overall_severity cs ∧
  alpha_potential (score_overall signals cs)
  = _alpha_potential (length cs) (count_severity Severity.high cs)
                     (count_severity Severity.medium cs).
Proof. unfold score_overall. by destruct (consensus signals). Qed.

Lemma labels_agree (signals : list Signal) (cs : list Contradiction) :
  let sc := score_overall signals cs in
  (alpha_potential sc = Level.high → contradiction_severity sc = Level.high) ∧
  (contradiction_severity sc = Level.high →
     alpha_potential sc = Level.high ∨ alpha_potential sc = Level.medium) ∧
  (alpha_potential sc = Level.none ↔ contradiction_severity sc = Level.none) ∧
  (contradiction_severity sc = Level.none ↔ cs = []).
Proof.
  cbv zeta. destruct (score_labels signals cs) as [-> ->].
  destruct (overall_severity_cases cs) as (Hh & Hm & Hl & Hn).
  pose proof (count_severity_positive Severity.high cs) as Hch.
  pose proof (count_high_medium_le cs) as Hle.
  assert (Hlen : cs = [] ↔ length cs = 0%nat).
  { split; [by intros ->|]. by destruct cs. }
  rewrite Hh, Hn, <- Hch, Hlen. clear Hh Hm Hl Hn Hch Hlen.
  revert Hle.
  generalize (count_severity Severity.high cs) (count_severity Severity.medium cs)
             (length cs).
  intros h m n Hle. unfold _alpha_potential.
  repeat case_decide; split_and!; try split; intros; try done; try lia; auto.
Qed.

(** X6.  The two labels of a score never disagree: alpha potential high
    implies contradiction severity high, severity high implies alpha
    potential high or medium, and either label is none exactly when there is
    no contradiction. *)
Theorem score_labels_agree (signals : list Signal) (cs : list Contradiction) :
  let sc := score_overall signals cs in
  (alpha_potential sc = Level.high → contradiction_severity sc = Level.high) ∧
  (contradiction_severity sc = Level.high →
     alpha_potential sc = Level.high ∨ alpha_potential sc = Level.medium) ∧
  (alpha_potential sc = Level.none ↔ contradiction_severity sc = Level.none) ∧
  (contradiction_severity sc = Level.none ↔ cs = []).
Proof. apply labels_agree. Qed.

(** ** Counting and weighing signals *)

Lemma score_counts (signals : list Signal) (cs : list Contradiction) :
  bullish_count (score_overall signals cs) = length (with_direction bullish signals) ∧
  bearish_count (score_overall signals cs) = length (with_direction bearish signals) ∧
  neutral_count (score_overall signals cs) = length (with_direction neutral signals) ∧
  contradiction_count (score_overall signals cs) = length cs ∧
  key_contradictions (score_overall signals cs) = description <$> take 3 cs.
Proof. unfold score_overall. by destruct (consensus signals). Qed.

Lemma with_direction_lengths (signals : list Signal) :
  (length (with_direction bullish signals) + length (with_direction bearish signals)
   + length (with_direction neutral signals)
   = length (filter (λ s, (0 < confidence s)%Q) signals))%nat.
Proof.
  unfold with_direction. induction signals as [|s signals IH]; [done|].
  rewrite !filter_cons.
  destruct (direction s); repeat case_decide; destruct_and?; simpl;
    try done; try lia; exfalso; tauto.
Qed.

(** X7.  The three direction counts of a score add up to the number of
    signals of positive confidence: a signal of confidence 0 is counted in
    none of them. *)
Theorem direction_counts_cover_confident_signals
    (signals : list Signal) (cs : list Contradiction) :
  let sc := score_overall signals cs in
  (bullish_count sc + bearish_count sc + neutral_count sc
   = length (filter (λ s, (0 < confidence s)%Q) signals))%nat ∧
  (bullish_count sc + bearish_count sc + neutral_count sc ≤ length signals)%nat.
Proof.
  cbv zeta. destruct (score_counts signals cs) as (-> & -> & -> & _).
  rewrite with_direction_lengths. split; [done|]. apply length_filter.
Qed.

Lemma sorted_take_drop (l : list Contradiction) (n : nat) :
  StronglySorted (key_le severity_key) l →
  ∀ x y, x ∈ take n l → y ∈ drop n l → (severity_key x ≤ severity_key y)%nat.
Proof.
  intros Hs. revert n. induction Hs as [|c l Hs IH Hall]; intros n x y Hx Hy.
  - rewrite take_nil in Hx. by apply elem_of_nil in Hx.
  - destruct n as [|n]; [by apply elem_of_nil in Hx|]. simpl in Hx, Hy.
    apply elem_of_cons in Hx as [->|Hx]; [|by eapply IH].
    rewrite Forall_forall in Hall. apply Hall. by apply (subseteq_drop n l).
Qed.

(** X8.  Scored on the output of [detect], [key_contradictions] describes
    the first three contradictions of that output, and no contradiction left
    out is more severe than one that is listed. *)
Theorem key_contradictions_most_severe (signals : list Signal) :
  let cs := detect signals in
  key_contradictions (score_overall signals cs) = description <$> take 3 cs ∧
  length (key_contradictions (score_overall signals cs)) = (length cs `min` 3)%nat ∧
  (∀ listed omitted, listed ∈ take 3 cs → omitted ∈ drop 3 cs →
     (severity_key listed ≤ severity_key omitted)%nat).
Proof.
  cbv zeta. destruct (score_counts signals (detect signals)) as (_ & _ & _ & _ & ->).
  split_and!; [done| |].
  - rewrite length_fmap, length_take. lia.
  - apply sorted_take_drop. apply sort_by_sorted.
Qed.

Lemma with_direction_confident (d : Direction) (signals : list Signal) :
  d ≠ neutral →
  with_direction d (filter (λ s, direction s ≠ neutral ∧ 0 < confidence s) signals)
  = with_direction d signals.
Proof.
  intros Hd. unfold with_direction. rewrite list_filter_filter.
  apply list_filter_iff. intros s. split; [tauto|]. intros [-> ?]. tauto.
Qed.

(** X9.  Neutral signals and signals of confidence 0 have no part in the
    consensus: dropping them from the input changes neither the direction
    nor the strength that [score_overall] returns. *)
Theorem consensus_ignores_neutral_and_unconfident
    (signals : list Signal) (cs : list Contradiction) :
  let kept := filter (λ s, direction s ≠ neutral ∧ 0 < confidence s) signals in
  consensus_direction (score_overall kept cs)
  = consensus_direction (score_overall signals cs) ∧
  consensus_strength (score_overall kept cs)
  = consensus_strength (score_overall signals cs).
Proof.
  cbv zeta. rewrite !consensus_direction_score, !consensus_strength_rounded.
  assert (consensus (filter (λ s, direction s ≠ neutral ∧ 0 < confidence s) signals)
          = consensus signals) as ->; [|done].
  unfold consensus, bull_weight, bear_weight.
  by rewrite !with_direction_confident.
Qed.

(** ** Symmetry and range of the consensus *)

Lemma with_direction_flip (d : Direction) (signals : list Signal) :
  with_direction (flip_direction d) (flip_signal <$> signals)
  = flip_signal <$> with_direction d signals.
Proof.
  unfold with_direction. induction signals as [|s signals IH]; [done|].
  rewrite fmap_cons, !filter_cons, IH. simpl.
  destruct (direction s), d; simpl; repeat case_decide; destruct_and?;
    try done; exfalso; tauto.
Qed.

Lemma weight_flip (side : list Signal) : weight (flip_signal <$> side) = weight side.
Proof. unfold weight. by rewrite <- list_fmap_compose. Qed.

Lemma weights_flip (signals : list Signal) :
  bull_weight (flip_signal <$> signals) = bear_weight signals ∧
  bear_weight (flip_signal <$> signals) = bull_weight signals.
Proof.
  unfold bull_weight, bear_weight. split.
  - by rewrite (with_direction_flip bearish), weight_flip.
  - by rewrite (with_direction_flip bullish), weight_flip.
Qed.

(** X10.  The consensus rule treats the two sides alike: exchanging bullish
    and bearish in every signal exchanges the bullish and bearish verdicts,
    keeps mixed and neutral, and returns the same strength. *)
Theorem consensus_symmetric (signals : list Signal) (cs : list Contradiction) :
  nonneg_strength signals →
  consensus_direction (score_overall (flip_signal <$> signals) cs)
  = flip_consensus (consensus_direction (score_overall signals cs)) ∧
  consensus_strength (score_overall (flip_signal <$> signals) cs)
  = consensus_strength (score_overall signals cs).
Proof.
  intros Hs. destruct (total_weight_nonneg signals Hs) as [Hb Hr].
  rewrite !consensus_direction_score, !consensus_strength_rounded.
  unfold consensus. destruct (weights_flip signals) as [-> ->].
  revert Hb Hr. generalize (bull_weight signals) (bear_weight signals).
  intros b r Hb Hr.
  assert (Hc : b + r == r + b) by lra.
  repeat case_decide; simpl; split; try done; try (exfalso; lra);
    apply round_comp; rewrite ?Hc; try reflexivity.
  rewrite <- (Qabs_opp (b - r)).
  assert (- (b - r) == r - b) as -> by lra. reflexivity.
Qed.

Lemma round_half_even_lower (a : Z) (x : Q) :
  inject_Z a - (1 # 2) < x → (a ≤ round_half_even x)%Z.
Proof.
  intros Hx. unfold round_half_even.
  pose proof (Qfloor_le x) as Hf. pose proof (Qlt_floor x) as Hg.
  rewrite inject_Z_plus in Hg. change (inject_Z 1) with 1 in Hg.
  destruct (Z_le_gt_dec a (Qfloor x)) as [Hle|Hgt].
  - destruct (Qcompare _ _); [destruct (Z.even _)|..]; lia.
  - assert (inject_Z (Qfloor x + 1) <= inject_Z a) as Ha.
    { rewrite <- Zle_Qle. lia. }
    rewrite inject_Z_plus in Ha. change (inject_Z 1) with 1 in Ha.
    assert (inject_Z a < inject_Z (Qfloor x + 2)) as Hb.
    { rewrite inject_Z_plus. change (inject_Z 2) with 2. lra. }
    rewrite <- Zlt_Qlt in Hb.
    destruct (Qcompare_spec (x - inject_Z (Qfloor x)) (1 # 2)) as [E|L|G];
      [exfalso; lra | exfalso; lra | lia].
Qed.

Lemma mixed_strength_bound (b r : Q) :
  0 <= b → 0 <= r → ¬ b + r == 0 → ¬ r * 1.3 < b → ¬ b * 1.3 < r →
  20 # 23 <= 1 - Qabs (b - r) / (b + r + 0.001) ∧
  1 - Qabs (b - r) / (b + r + 0.001) <= 1.
Proof.
  intros Hb Hr H0 H1 H2.
  assert (0 <= Qabs (b - r) / (b + r + 0.001) ∧
          Qabs (b - r) / (b + r + 0.001) <= 3 # 23) as [??]; [|lra].
  split.
  - apply Qle_shift_div_l; [lra|]. pose proof (Qabs_nonneg (b - r)). lra.
  - apply Qle_shift_div_r; [lra|]. apply Qabs_Qle_condition. lra.
Qed.

(** X11.  A mixed verdict always carries a high strength: the value of the
    mixed branch is at least 20/23, so the strength returned with direction
    mixed is between 0.87 and 1. *)
Theorem mixed_strength_at_least_087 (signals : list Signal) (cs : list Contradiction) :
  nonneg_strength signals →
  consensus_direction (score_overall signals cs) = Consensus.mixed →
  0.87 <= consensus_strength (score_overall signals cs) ∧
  consensus_strength (score_overall signals cs) <= 1.
Proof.
  intros Hs. destruct (total_weight_nonneg signals Hs) as [Hb Hr].
  rewrite consensus_direction_score, consensus_strength_rounded.
  destruct (consensus_cases signals) as [H0|H0 H1|H0 H1 H2|H0 H1 H2];
    try discriminate. intros _. unfold snd.
  unfold total_weight in *.
  destruct (mixed_strength_bound _ _ Hb Hr H0 H1 H2) as [Hlo Hhi].
  revert Hlo Hhi.
  generalize (1 - Qabs (bull_weight signals - bear_weight signals)
                  / (bull_weight signals + bear_weight signals + 0.001)).
  intros x Hlo Hhi. split.
  - unfold round, Qdiv.
    change (/ inject_Z (10 ^ Z.of_nat 2)) with (1 # 100).
    change (inject_Z (10 ^ Z.of_nat 2)) with 100.
    assert (87 ≤ round_half_even (x * 100))%Z as H87.
    { apply round_half_even_lower. change (inject_Z 87) with 87. lra. }
    rewrite Zle_Qle in H87. change (inject_Z 87) with 87 in H87. lra.
  - apply round_unit_interval; lra.
Qed.

(** ** The range of what the extractors return *)

Lemma aggregate_in_unit_range (category : string) (d : Direction) (avg conf : Q)
    (why : string) :
  0 <= conf → conf <= 1 →
  in_unit_range (mkSignal category d (round (Qmin (Qabs avg) 1.0) 2) (round conf 2) why).
Proof.
  intros H0 H1. unfold in_unit_range. simpl. split.
  - apply round_unit_interval.
    + apply Q.min_glb; [apply Qabs_nonneg | lra].
    + eapply Qle_trans; [apply Q.le_min_r | lra].
  - by apply round_unit_interval.
Qed.

Lemma no_data_in_unit_range (category why : string) :
  in_unit_range (mkSignal category neutral 0.0 0.0 why).
Proof. unfold in_unit_range. simpl. lra. Qed.

Lemma Qmin_unit (x : Q) : 0 <= x → 0 <= Qmin x 1.0 ∧ Qmin x 1.0 <= 1.
Proof.
  intros H. split; [apply Q.min_glb; lra|]. eapply Qle_trans; [apply Q.le_min_r | lra].
Qed.

Lemma technical_confidence_range (data : StockData) :
  0 <= technical_signal._assess_confidence data ∧
  technical_signal._assess_confidence data <= 1.
Proof.
  unfold technical_signal._assess_confidence.
  destruct (history_30d data); repeat case_decide; lra.
Qed.

Lemma valuation_confidence_range (data : StockData) :
  0 <= valuation_signal._assess_confidence data ∧
  valuation_signal._assess_confidence data <= 1.
Proof. unfold valuation_signal._assess_confidence. repeat case_decide; lra. Qed.

Lemma insider_confidence_range (data : StockData) :
  0 <= insider_signal._assess_confidence data ∧
  insider_signal._assess_confidence data <= 1.
Proof.
  unfold insider_signal._assess_confidence. apply Qmin_unit.
  destruct (insider_transactions data); repeat case_decide; lra.
Qed.

Lemma earnings_confidence_range (data : StockData) :
  0 <= earnings_signal._assess_confidence data ∧
  earnings_signal._assess_confidence data <= 1.
Proof.
  unfold earnings_signal._assess_confidence. apply Qmin_unit.
  assert (∀ l : list (gmap string Q),
            0 <= Qmin (inject_Z (Z.of_nat (length l)) * 0.1) 0.4) as Hm.
  { intros l. apply Q.min_glb; [|lra]. apply Qmult_le_0_compat; [|lra].
    change 0 with (inject_Z 0). rewrite <- Zle_Qle. lia. }
  destruct (last_4_surprises data) as [|s l]; destruct (next_earnings_date data);
    try lra; pose proof (Hm (s :: l)); lra.
Qed.

Lemma options_confidence_range (data : StockData) :
  0 <= options_signal._assess_confidence data ∧
  options_signal._assess_confidence data <= 1.
Proof. unfold options_signal._assess_confidence. repeat case_decide; lra. Qed.

Lemma momentum_confidence_range (data : StockData) :
  0 <= momentum_signal._assess_confidence data ∧
  momentum_signal._assess_confidence data <= 1.
Proof.
  unfold momentum_signal._assess_confidence.
  destruct (history_30d data); [|lra]. case_decide; [lra|].
  apply Qmin_unit. repeat case_decide; lra.
Qed.

Lemma macro_confidence_range (macro : MacroData) :
  0 <= macro_signal._assess_confidence macro ∧
  macro_signal._assess_confidence macro <= 1.
Proof.
  unfold macro_signal._assess_confidence. apply Qmin_unit. repeat case_decide; lra.
Qed.

Lemma news_confidence_range (news_data : NewsData) :
  0 <= news_signal._assess_confidence news_data ∧
  news_signal._assess_confidence news_data <= 1.
Proof.
  unfold news_signal._assess_confidence. case_decide; [lra|].
  apply Qmin_unit. repeat case_decide; lra.
Qed.

Lemma momentum_in_unit_range {R : Reasoning} (stock_data : StockData) :
  match momentum_signal.extract stock_data with
  | Ok s => in_unit_range s
  | Raise _ => True
  end.
Proof.
  unfold momentum_signal.extract.
  destruct (momentum_signal.collected _) as [[|x l]|exc];
    unfold mbind, Result_bind; [| |done];
    [apply no_data_in_unit_range | cbv zeta; apply aggregate_in_unit_range;
                                   apply momentum_confidence_range].
Qed.

Lemma extractors_in_unit_range {R : Reasoning}
    (stock_data : StockData) (macro_data : MacroData) (news_data : NewsData) :
  in_unit_range (technical_signal.extract stock_data) ∧
  in_unit_range (valuation_signal.extract stock_data) ∧
  in_unit_range (insider_signal.extract stock_data) ∧
  in_unit_range (earnings_signal.extract stock_data) ∧
  in_unit_range (options_signal.extract stock_data) ∧
  (∀ s, momentum_signal.extract stock_data = Ok s → in_unit_range s) ∧
  in_unit_range (macro_signal.extract stock_data macro_data) ∧
  in_unit_range (news_signal.extract news_data).
Proof.
  split_and!.
  - unfold technical_signal.extract. destruct (technical_signal.collected _);
      [apply no_data_in_unit_range | cbv zeta; apply aggregate_in_unit_range;
                                     apply technical_confidence_range].
  - unfold valuation_signal.extract. destruct (valuation_signal.collected _);
      [apply no_data_in_unit_range | cbv zeta; apply aggregate_in_unit_range;
                                     apply valuation_confidence_range].
  - unfold insider_signal.extract. destruct (insider_signal.collected _);
      [apply no_data_in_unit_range | cbv zeta; apply aggregate_in_unit_range;
                                     apply insider_confidence_range].
  - unfold earnings_signal.extract. destruct (earnings_signal.collected _);
      [apply no_data_in_unit_range | cbv zeta; apply aggregate_in_unit_range;
                                     apply earnings_confidence_range].
  - unfold options_signal.extract. destruct (options_signal.collected _);
      [apply no_data_in_unit_range | cbv zeta; apply aggregate_in_unit_range;
                                     apply options_confidence_range].
  - intros s Hs. pose proof (momentum_in_unit_range stock_data) as H.
    by rewrite Hs in H.
  - unfold macro_signal.extract. destruct (macro_signal.collected _);
      [apply no_data_in_unit_range | cbv zeta; apply aggregate_in_unit_range;
                                     apply macro_confidence_range].
  - unfold news_signal.extract. destruct (news_signal.collected _);
      [apply no_data_in_unit_range | cbv zeta; apply aggregate_in_unit_range;
                                     apply news_confidence_range].
Qed.

(** X12.  Every signal that an extractor returns keeps the [Signal]
    contract: its strength and its confidence are both in [0, 1]. *)
Theorem extractor_signals_in_unit_range {R : Reasoning}
    (stock_data : StockData) (macro_data : MacroData) (news_data : NewsData) :
  in_unit_range (technical_signal.extract stock_data) ∧
  in_unit_range (valuation_signal.extract stock_data) ∧
  in_unit_range (insider_signal.extract stock_data) ∧
  in_unit_range (earnings_signal.extract stock_data) ∧
  in_unit_range (options_signal.extract stock_data) ∧
  (∀ s, momentum_signal.extract stock_data = Ok s → in_unit_range s) ∧
  in_unit_range (macro_signal.extract stock_data macro_data) ∧
  in_unit_range (news_signal.extract news_data).
Proof. apply extractors_in_unit_range. Qed.

(** ** The range of the sub-scores *)
















(** ** The pipeline of [analyze] *)

(** The signal that the runner keeps for the momentum extractor. *)
Lemma pipeline_signals {R : Reasoning}
    (stock_data : StockData) (macro_data : MacroData) (news_data : NewsData) :
  runner._extract_all_signals runner.signals stock_data macro_data news_data
  = [technical_signal.extract stock_data;
     valuation_signal.extract stock_data;
     insider_signal.extract stock_data;
     earnings_signal.extract stock_data;
     options_signal.extract stock_data;
     match momentum_signal.extract stock_data with
     | Ok s => s
     | Raise exc => mkSignal "momentum" neutral 0.0 0.0 ("Extraction failed: " +:+ exc)
     end;
     macro_signal.extract stock_data macro_data;
     news_signal.extract news_data].
Proof. unfold runner._extract_all_signals. by rewrite foldl_step. Qed.







(** ** The scan of the monitor *)

Lemma flagged_interpretation (signals : list Signal) (cs : list Contradiction) :
  let sc := score_overall signals cs in
  alpha_potential sc ∈ monitor_scan._ALPHA_THRESHOLDS →
  continuous_monitor._interpret_idea sc
  = if decide (alpha_potential sc = Level.high) then turning_point_message
    else wait_for_catalyst_message.
Proof.
  cbv zeta. intros Hf. destruct (labels_agree signals cs) as (Hh & _).
  unfold continuous_monitor._interpret_idea.
  unfold monitor_scan._ALPHA_THRESHOLDS in Hf.
  rewrite !elem_of_cons, elem_of_nil in Hf. destruct Hf as [Hf|[Hf|[]]].
  - rewrite Hf in *. rewrite (Hh eq_refl). by repeat case_decide; try tauto.
  - rewrite Hf in *. by repeat case_decide; destruct_and?.
Qed.

Lemma length_omap_le {A B : Type} (f : A → option B) (l : list A) :
  (length (omap f l) ≤ length l)%nat.
Proof.
  induction l as [|x l IH]; [done|].
  change (omap f (x :: l))
    with (match f x with Some y => y :: omap f l | None => omap f l end).
  destruct (f x); simpl; lia.
Qed.

Lemma scan_step_foldl (results : list (Result Score)) (n : nat) (written : list string) :
  foldl monitor_scan.scan_step (n, written) results
  = let flagged :=
      filter (λ sc, alpha_potential sc ∈ monitor_scan._ALPHA_THRESHOLDS)
             (omap (λ r, match r with Ok sc => Some sc | Raise _ => None end) results) in
    ((n + length flagged)%nat,
     written ++ (continuous_monitor._interpret_idea <$> flagged)).
Proof.
  revert n written. induction results as [|r results IH]; intros n written; cbv zeta.
  - simpl. by rewrite Nat.add_0_r, app_nil_r.
  - simpl. destruct r as [sc|exc]; simpl.
    + rewrite filter_cons. case_decide; rewrite IH; cbv zeta; simpl.
      * rewrite Nat.add_succ_r. f_equal. by rewrite <- app_assoc.
      * done.
    + by rewrite IH.
Qed.

(** X15.  The scan counts one idea per analysis that succeeded with alpha
    potential high or medium, and skips an analysis that raised.  For scores
    that come from [score_overall], the interpretation written with an idea
    is the turning-point message when the alpha potential is high and the
    wait-for-a-catalyst message when it is medium: the trend-following and
    no-clear-edge messages are never written by the scan. *)
Theorem scan_writes_two_messages
    (analyses : list (Result (list Signal * list Contradiction))) :
  let results :=
    (λ r, match r with
          | Ok a => Ok (score_overall a.1 a.2)
          | Raise exc => Raise exc
          end) <$> analyses in
  let flagged :=
    filter (λ sc, alpha_potential sc ∈ monitor_scan._ALPHA_THRESHOLDS)
           (omap (λ r, match r with Ok sc => Some sc | Raise _ => None end) results) in
  let '(ideas_found, written) := monitor_scan._scan_all_stocks results in
  ideas_found = length flagged ∧
  (ideas_found ≤ length analyses)%nat ∧
  written = (λ sc, if decide (alpha_potential sc = Level.high)
                   then turning_point_message else wait_for_catalyst_message) <$> flagged.
Proof.
  cbv zeta. unfold monitor_scan._scan_all_stocks. rewrite scan_step_foldl. cbv zeta.
  split_and!.
  - done.
  - simpl. etrans; [apply length_filter|].
    etrans; [apply length_omap_le|]. by rewrite length_fmap.
  - simpl. apply Forall_fmap_ext_1.
    rewrite Forall_forall. intros sc Hsc.
    apply list_elem_of_filter in Hsc as [Hf Hsc].
    apply list_elem_of_omap in Hsc as (r & Hr & Hsc).
    apply list_elem_of_fmap in Hr as (a & -> & _).
    destruct a as [[signals cs]|exc]; [|done]. injection Hsc as <-.
    by apply flagged_interpretation.
Qed.

(** ** When the momentum extractor raises *)

Lemma iloc_neg_ok (series : list Q) (k : nat) :
  (1 ≤ k ≤ length series)%nat → ∃ x, iloc_neg series k = Ok x.
Proof.
  intros [H1 Hk]. unfold iloc_neg. case_decide; [|lia].
  destruct (lookup_lt_is_Some_2 series (length series - k)) as [x ->]; [lia|].
  by exists x.
Qed.

Lemma getitem_Ok (df : DataFrame) (col : string) (series : list Q) :
  columns df !! col = Some series → getitem df col = Ok series.
Proof. unfold getitem. by intros ->. Qed.

Lemma getitem_Raise (df : DataFrame) (col : string) :
  columns df !! col = None → getitem df col = Raise ("'" +:+ col +:+ "'").
Proof. unfold getitem. by intros ->. Qed.

Lemma price_trend_raises (data : StockData) (h : DataFrame) (scores : list Q) :
  history_30d data = Some h → (5 ≤ nrows h)%nat → columns h !! "Close" = None →
  momentum_signal._score_price_trend data scores = Raise "'Close'".
Proof.
  intros Hh Hn Hc. unfold momentum_signal._score_price_trend. rewrite Hh.
  case_decide; [lia|]. by rewrite (getitem_Raise _ _ Hc).
Qed.

Lemma price_trend_returns (data : StockData) (scores : list Q) :
  (∀ h, history_30d data = Some h → rectangular h) →
  (∀ h, history_30d data = Some h → (5 ≤ nrows h)%nat → is_Some (columns h !! "Close")) →
  ∃ scores', momentum_signal._score_price_trend data scores = Ok scores'.
Proof.
  intros Hrect Hclose. unfold momentum_signal._score_price_trend.
  destruct (history_30d data) as [h|] eqn:Hh; [|by eexists].
  case_decide as Hn; [by eexists|].
  destruct (Hclose h eq_refl) as [close Hc]; [lia|].
  pose proof (Hrect h eq_refl _ _ Hc) as Hlen.
  rewrite (getitem_Ok _ _ _ Hc). unfold mbind, Result_bind.
  destruct (iloc_neg_ok close 1) as [x1 ->]; [lia|].
  destruct (iloc_neg_ok close 5) as [x5 ->]; [lia|].
  case_decide; [|lia].
  case_decide as H20; [|by eexists].
  destruct (iloc_neg_ok close 20) as [x20 ->]; [lia|]. by eexists.
Qed.

Lemma volume_confirmation_returns (data : StockData) (scores : list Q) :
  (∀ h, history_30d data = Some h → rectangular h) →
  (∀ h, history_30d data = Some h → (5 ≤ nrows h)%nat → is_Some (columns h !! "Close")) →
  ∃ scores', momentum_signal._score_volume_confirmation data scores = Ok scores'.
Proof.
  intros Hrect Hclose. unfold momentum_signal._score_volume_confirmation.
  destruct (history_30d data) as [h|] eqn:Hh; [|by eexists].
  case_decide as Hn; [by eexists|].
  case_decide as Hv; [by eexists|].
  destruct (columns h !! "Volume") as [vol|] eqn:Hvol; [|done].
  destruct (Hclose h eq_refl) as [close Hc]; [lia|].
  pose proof (Hrect h eq_refl _ _ Hc) as Hlen.
  rewrite (getitem_Ok _ _ _ Hvol), (getitem_Ok _ _ _ Hc). unfold mbind, Result_bind.
  cbv zeta. case_decide; [by eexists|].
  destruct (iloc_neg_ok close 1) as [x1 ->]; [lia|].
  destruct (iloc_neg_ok close 5) as [x5 ->]; [lia|]. by eexists.
Qed.

Lemma momentum_returns {R : Reasoning} (data : StockData) :
  (∀ h, history_30d data = Some h → rectangular h) →
  (∀ h, history_30d data = Some h → (5 ≤ nrows h)%nat → is_Some (columns h !! "Close")) →
  ∃ s, momentum_signal.extract data = Ok s.
Proof.
  intros Hrect Hclose. unfold momentum_signal.extract, momentum_signal.collected,
    momentum_signal._score_beta_momentum.
  destruct (price_trend_returns data [] Hrect Hclose) as [s1 ->].
  unfold mbind, Result_bind.
  destruct (volume_confirmation_returns data s1 Hrect Hclose) as [s2 ->].
  destruct s2; by eexists.
Qed.

Lemma momentum_raises {R : Reasoning} (data : StockData) (h : DataFrame) :
  history_30d data = Some h → (5 ≤ nrows h)%nat → columns h !! "Close" = None →
  momentum_signal.extract data = Raise "'Close'".
Proof.
  intros Hh Hn Hc. unfold momentum_signal.extract, momentum_signal.collected.
  by rewrite (price_trend_raises data h [] Hh Hn Hc).
Qed.

(** X16.  On a price history whose columns all have one entry per row, the
    momentum extractor raises exactly when the history has at least five
    rows and no "Close" column, and the exception is then the KeyError of
    that column; with fewer than five rows, no history, or a "Close" column
    it returns a signal.  In the raising case the runner keeps the neutral
    substitute for momentum, with the KeyError in its reasoning. *)
Theorem momentum_raises_iff_close_missing {R : Reasoning}
    (stock_data : StockData) (macro_data : MacroData) (news_data : NewsData) :
  (∀ h, history_30d stock_data = Some h → rectangular h) →
  let no_close :=
    ∃ h, history_30d stock_data = Some h ∧ (5 ≤ nrows h)%nat ∧
         columns h !! "Close" = None in
  (no_close ↔ momentum_signal.extract stock_data = Raise "'Close'") ∧
  (¬ no_close ↔ ∃ s, momentum_signal.extract stock_data = Ok s) ∧
  (no_close →
   runner._extract_all_signals runner.signals stock_data macro_data news_data !! 5%nat
   = Some (mkSignal "momentum" neutral 0.0 0.0 "Extraction failed: 'Close'")).
Proof.
  intros Hrect. cbv zeta.
  assert ((∃ h, history_30d stock_data = Some h ∧ (5 ≤ nrows h)%nat ∧
                columns h !! "Close" = None) ∨
          (∀ h, history_30d stock_data = Some h → (5 ≤ nrows h)%nat →
                is_Some (columns h !! "Close"))) as [Hno|Hyes].
  { destruct (history_30d stock_data) as [h|]; [|right; intros ? [=]].
    destruct (decide (5 ≤ nrows h)%nat) as [Hn|Hn];
      [|right; intros ? [= <-] ?; lia].
    destruct (columns h !! "Close") as [close|] eqn:Hc.
    - right. intros ? [= <-] _. by rewrite Hc.
    - left. by exists h. }
  - pose proof Hno as (h & Hh & Hn & Hc).
    pose proof (momentum_raises stock_data h Hh Hn Hc) as Hraise.
    rewrite pipeline_signals. rewrite Hraise. split_and!.
    + done.
    + split; [done|]. by intros [s [=]].
    + done.
  - destruct (momentum_returns stock_data Hrect Hyes) as [s Hs].
    assert (¬ ∃ h, history_30d stock_data = Some h ∧ (5 ≤ nrows h)%nat ∧
                   columns h !! "Close" = None) as Hnot.
    { intros (h & Hh & Hn & Hc). destruct (Hyes h Hh Hn) as [x Hx]. congruence. }
    rewrite pipeline_signals. rewrite Hs. split_and!.
    + split; [done|]. intros [=].
    + split; [by exists s|done].
    + done.
Qed.

(** ** The sentiment score of the news collector *)

Lemma importance_weight_pos (importance : string) :
  0 < news_collector.get news_collector._IMPORTANCE_WEIGHTS importance 1.0.
Proof.
  unfold news_collector.get, news_collector._IMPORTANCE_WEIGHTS. cbn.
  repeat case_decide; cbn; lra.
Qed.

Lemma item_score_range (b r : nat) :
  (b + r ≠ 0)%nat →
  let item_score :=
    inject_Z (Z.of_nat b - Z.of_nat r) / inject_Z (Z.of_nat (b + r)) in
  -1 <= item_score ∧ item_score <= 1.
Proof.
  intros Hne. cbv zeta.
  assert (0 < inject_Z (Z.of_nat (b + r))) as Hpos.
  { change 0 with (inject_Z 0). rewrite <- Zlt_Qlt. lia. }
  assert (inject_Z (- Z.of_nat (b + r)) <= inject_Z (Z.of_nat b - Z.of_nat r)) as Hlo.
  { rewrite <- Zle_Qle. lia. }
  assert (inject_Z (Z.of_nat b - Z.of_nat r) <= inject_Z (Z.of_nat (b + r))) as Hhi.
  { rewrite <- Zle_Qle. lia. }
  rewrite inject_Z_opp in Hlo.
  split; [apply Qle_shift_div_l | apply Qle_shift_div_r]; try done; lra.
Qed.

Lemma foldl_cons_step {A B : Type} (f : A → B → A) (a : A) (x : B) (l : list B) :
  foldl f a (x :: l) = foldl f (f a x) l.
Proof. reflexivity. Qed.

Section scoring_properties.
Variables bull_count bear_count : NewsItem → nat.

Lemma score_step_cases (s w : Q) (item : NewsItem) :
  let k := news_collector.get news_collector._IMPORTANCE_WEIGHTS (item_importance item) 1.0 in
  let x := inject_Z (Z.of_nat (bull_count item) - Z.of_nat (bear_count item))
           / inject_Z (Z.of_nat (bull_count item + bear_count item)) in
  ((bull_count item + bear_count item = 0)%nat ∧
   news_collector.score_step bull_count bear_count (s, w) item = (s, w)) ∨
  ((bull_count item + bear_count item ≠ 0)%nat ∧ 0 < k ∧ (-1 <= x ∧ x <= 1) ∧
   ((bear_count item = 0)%nat → x == 1) ∧
   news_collector.score_step bull_count bear_count (s, w) item = (s + x * k, w + k)).
Proof.
  cbv zeta. unfold news_collector.score_step. case_decide as Hk; [by left|right].
  split_and!; try done.
  - apply importance_weight_pos.
  - by apply item_score_range.
  - by apply item_score_range.
  - intros Hb. rewrite Hb, Z.sub_0_r, Nat.add_0_r. apply Qmult_inv_r.
    change 0 with (inject_Z 0). rewrite inject_Z_injective. lia.
Qed.

Lemma score_step_totals (items : list NewsItem) (s w : Q) :
  0 <= w → - w <= s ∧ s <= w →
  let totals := foldl (news_collector.score_step bull_count bear_count) (s, w) items in
  w <= totals.2 ∧ (- totals.2 <= totals.1 ∧ totals.1 <= totals.2).
Proof.
  revert s w. induction items as [|item items IH]; intros s w Hw Hs; cbv zeta.
  - simpl. lra.
  - rewrite foldl_cons_step.
    destruct (score_step_cases s w item) as [[_ ->]|(_ & Hpos & Hx & _ & ->)].
    + by apply IH.
    + revert Hpos Hx.
      generalize (news_collector.get news_collector._IMPORTANCE_WEIGHTS
                    (item_importance item) 1.0).
      generalize (inject_Z (Z.of_nat (bull_count item) - Z.of_nat (bear_count item))
                  / inject_Z (Z.of_nat (bull_count item + bear_count item))).
      intros x k Hpos Hx.
      destruct (IH (s + x * k) (w + k)) as [H1 H2]; [lra|nra|].
      split; [lra|done].
Qed.

Lemma score_step_no_keyword (items : list NewsItem) (s w : Q) :
  Forall (λ item, (bull_count item + bear_count item = 0)%nat) items →
  foldl (news_collector.score_step bull_count bear_count) (s, w) items = (s, w).
Proof.
  induction 1 as [|item items Hk _ IH]; [done|].
  rewrite foldl_cons_step.
  destruct (score_step_cases s w item) as [[_ ->]|(? & _)]; done.
Qed.

Lemma score_step_only_bullish (items : list NewsItem) (s w : Q) :
  Forall (λ item, bear_count item = 0%nat) items → 0 <= w → s == w →
  let totals := foldl (news_collector.score_step bull_count bear_count) (s, w) items in
  totals.1 == totals.2 ∧ w <= totals.2 ∧
  (Exists (λ item, (0 < bull_count item)%nat) items → w < totals.2).
Proof.
  intros Hb. revert s w.
  induction Hb as [|item items Hk _ IH]; intros s w Hw Hs; cbv zeta.
  - simpl. split_and!; [done|lra|]. by intros ?%Exists_nil.
  - rewrite foldl_cons_step.
    destruct (score_step_cases s w item) as [[H0 ->]|(_ & Hpos & _ & Hx & ->)].
    + destruct (IH s w Hw Hs) as (H1 & H2 & H3). split_and!; [done|done|].
      intros [?|?]%Exists_cons; [lia|auto].
    + specialize (Hx Hk). revert Hpos Hx.
      generalize (news_collector.get news_collector._IMPORTANCE_WEIGHTS
                    (item_importance item) 1.0).
      generalize (inject_Z (Z.of_nat (bull_count item) - Z.of_nat (bear_count item))
                  / inject_Z (Z.of_nat (bull_count item + bear_count item))).
      intros x k Hpos Hx.
      destruct (IH (s + x * k) (w + k)) as (H1 & H2 & H3); [lra|rewrite Hx; lra|].
      split_and!; [done|lra|]. intros _. lra.
Qed.

(** X17.  In exact arithmetic the sentiment score of [_score_items] is the
    weighted mean of the item scores and lies in [-1, 1] before it is
    clamped, so the clamp changes nothing.  The score is 0 when no item
    contains a keyword, and it is 1 as soon as some item contains a bullish
    keyword and no item a bearish one. *)
Theorem score_items_weighted_mean (items : list NewsItem) :
  let score := news_collector._score_items bull_count bear_count items in
  let totals := foldl (news_collector.score_step bull_count bear_count) (0.0, 0.0) items in
  (-1 <= score ∧ score <= 1) ∧
  (¬ totals.2 == 0 → score == totals.1 / totals.2) ∧
  (Forall (λ item, (bull_count item + bear_count item = 0)%nat) items → score == 0) ∧
  (Forall (λ item, bear_count item = 0%nat) items →
   Exists (λ item, (0 < bull_count item)%nat) items → score == 1).
Proof.
  cbv zeta. unfold news_collector._score_items.
  destruct items as [|item items].
  { split_and!; try done. by intros _ ?%Exists_nil. }
  pose proof (score_step_totals (item :: items) 0.0 0.0) as Ht.
  pose proof (score_step_no_keyword (item :: items) 0.0 0.0) as Hn.
  pose proof (score_step_only_bullish (item :: items) 0.0 0.0) as Hb.
  cbv zeta in Ht, Hb.
  destruct (foldl (news_collector.score_step bull_count bear_count) (0.0, 0.0)
                  (item :: items)) as [total_score total_weight].
  unfold fst, snd in *.
  destruct Ht as (Hw & Hlo & Hhi); [done|done|].
  assert (0 <= total_weight) as Hw0 by (revert Hw; apply Qle_trans; done).
  case_decide as Hz.
  - split_and!; try done.
    + intros H. exfalso. apply H. by rewrite Hz.
    + intros Hf He. destruct (Hb Hf) as (_ & _ & Hlt); [discriminate|reflexivity|].
      specialize (Hlt He). exfalso. rewrite Hz in Hlt. by apply (Qlt_irrefl 0.0).
  - assert (0 < total_weight) as Hpos.
    { apply Qle_lt_or_eq in Hw0 as [?|Heq]; [done|]. exfalso. apply Hz.
      by rewrite <- Heq. }
    assert (-1 <= total_score / total_weight ∧ total_score / total_weight <= 1)
      as [Hrlo Hrhi].
    { split; [apply Qle_shift_div_l | apply Qle_shift_div_r]; try done; lra. }
    assert (Qmax (-1.0) (Qmin 1.0 (total_score / total_weight))
            == total_score / total_weight) as Hclamp.
    { rewrite Q.min_r by (revert Hrhi; generalize (total_score / total_weight);
                          intros q Hq; eapply Qle_trans; [exact Hq|done]).
      apply Q.max_r. revert Hrlo. generalize (total_score / total_weight).
      intros q Hq. eapply Qle_trans; [|exact Hq]. done. }
    rewrite Hclamp. split_and!; try done.
    + intros Hf. specialize (Hn Hf). apply (f_equal snd) in Hn. unfold snd in Hn.
      exfalso. apply Hz. by rewrite Hn.
    + intros Hf He. destruct (Hb Hf) as (Heq & _ & _); [discriminate|reflexivity|].
      rewrite Heq. apply Qmult_inv_r. intros H0. apply Hz. by rewrite H0.
Qed.

End scoring_properties.

(** ** The news extractor on collected news *)

Lemma news_confidence_floor (news_data : NewsData) :
  news_volume news_data ≠ 0%Z → 0.4 <= news_signal._assess_confidence news_data.
Proof.
  intros Hv. unfold news_signal._assess_confidence. case_decide; [done|].
  repeat case_decide; apply Q.min_glb; lra.
Qed.

Lemma news_no_items_no_scores (news_data : NewsData) :
  news_volume news_data = 0%Z →
  ticker_sentiment_score news_data == 0 → macro_sentiment_score news_data == 0 →
  news_signal.collected news_data = [].
Proof.
  intros Hv Ht Hm. unfold news_signal.collected, news_signal._score_ticker_sentiment,
    news_signal._score_macro_sentiment, news_signal._score_volume_anomaly.
  cbv zeta. rewrite Hv.
  repeat case_decide; try done; try lra; try lia.
Qed.

Section collected_news.
Context {R : Reasoning}.
Variables bull_count bear_count : NewsItem → nat.

(** X18.  On the news data that [collect] builds, the volume is the number
    of items of both lists and bounds the count of high-importance items,
    and the news extractor gives confidence 0 only to the neutral signal of
    strength 0: without items both sentiment scores are 0, so nothing is
    scored. *)
Theorem collected_news_zero_confidence_neutral
    (queried : Result (list NewsItem * list NewsItem)) :
  let news_data := news_collector.collect bull_count bear_count queried in
  let s := news_signal.extract news_data in
  news_volume news_data
  = Z.of_nat (length (ticker_news news_data) + length (macro_news news_data)) ∧
  (0 ≤ high_importance_count news_data ≤ news_volume news_data)%Z ∧
  (news_volume news_data = 0%Z → news_signal.collected news_data = []) ∧
  (confidence s == 0 → direction s = neutral ∧ strength s == 0).
Proof.
  cbv zeta.
  assert (news_volume (news_collector.collect bull_count bear_count queried) = 0%Z →
          news_signal.collected (news_collector.collect bull_count bear_count queried) = [])
    as Hnone.
  { intros Hv. apply news_no_items_no_scores; [done| |].
    - destruct queried as [[t m]|exc]; [|reflexivity]. simpl in *.
      destruct t; [reflexivity|]. simpl in Hv. lia.
    - destruct queried as [[t m]|exc]; [|reflexivity]. simpl in *.
      destruct t; [|simpl in Hv; lia]. destruct m; [reflexivity|]. simpl in Hv. lia. }
  split_and!.
  - destruct queried as [[t m]|exc]; [|done]. simpl. by rewrite length_app.
  - destruct queried as [[t m]|exc]; [|done]. simpl. lia.
  - destruct queried as [[t m]|exc]; [|done]. simpl.
    pose proof (length_filter (λ item, item_importance item = "high") (t ++ m)). lia.
  - exact Hnone.
  - unfold news_signal.extract.
    destruct (news_signal.collected (news_collector.collect bull_count bear_count queried))
      as [|x l] eqn:E; [done|].
    cbv zeta. cbn [confidence direction strength]. intros Hc. exfalso.
    destruct (decide (news_volume (news_collector.collect bull_count bear_count queried)
                      = 0%Z)) as [Hv|Hv].
    + specialize (Hnone Hv). congruence.
    + apply news_confidence_floor in Hv. revert Hc. apply round_zero_small. lra.
Qed.

End collected_news.

(** ** The sector returns of the macro collector *)

Lemma sector_returns_lookup (ret : string → Q) (returns : gmap string Q)
    (etfs : list (string * string)) (key : string) :
  foldl (λ returns '(etf_ticker, sector_name),
           <[sector_name := round (ret etf_ticker) 2]> returns) returns etfs !! key
  = match last (filter (λ p, p.2 = key) etfs) with
    | Some p => Some (round (ret p.1) 2)
    | None => returns !! key
    end.
Proof.
  induction etfs as [|[etf name] etfs IH] using rev_ind; [done|].
  rewrite foldl_app, filter_app. simpl. rewrite filter_cons, filter_nil. simpl.
  case_decide as Hk.
  - subst. rewrite lookup_insert. rewrite decide_True by done.
    by rewrite last_snoc.
  - rewrite lookup_insert_ne by done. rewrite app_nil_r. apply IH.
Qed.

Lemma resolved_is_sector_etf (normalized : string) :
  let etf_ticker := news_collector.get macro_collector._SECTOR_TO_ETF normalized "" in
  etf_ticker = "" ∨ etf_ticker ∈ macro_collector.SECTOR_ETFS.*1.
Proof.
  cbv zeta. unfold news_collector.get, macro_collector._SECTOR_TO_ETF. cbn.
  repeat case_decide; cbn; try (by left);
    right; apply (bool_decide_unpack _); vm_compute; done.
Qed.

Lemma sector_name_of_etf (etf_ticker : string) :
  etf_ticker ∈ macro_collector.SECTOR_ETFS.*1 →
  (etf_ticker, news_collector.get macro_collector.SECTOR_ETFS etf_ticker "")
  ∈ macro_collector.SECTOR_ETFS.
Proof.
  unfold macro_collector.SECTOR_ETFS. cbn. rewrite !elem_of_cons, elem_of_nil.
  intros H. destruct_or!; try done; subst; vm_compute; set_solver.
Qed.

Section collector_properties.
Variable _one_month_return : string → Q.

Lemma collected_sector_return (data : MacroData) (stock_sector : string)
    (etf_ticker sector_name : string) :
  (etf_ticker, sector_name) ∈ macro_collector.SECTOR_ETFS →
  sector_returns_1m (macro_collector._collect_sectors _one_month_return data stock_sector)
    !! sector_name
  = Some (round (_one_month_return etf_ticker) 2).
Proof.
  intros Hin. unfold macro_collector._collect_sectors. cbn [sector_returns_1m].
  rewrite sector_returns_lookup. revert Hin.
  unfold macro_collector.SECTOR_ETFS. rewrite !elem_of_cons, elem_of_nil.
  intros H. destruct_or!; try done; injection H as -> ->; reflexivity.
Qed.

Lemma collected_sector_keys (data : MacroData) (stock_sector key : string) :
  key ∉ macro_collector.SECTOR_ETFS.*2 →
  sector_returns_1m (macro_collector._collect_sectors _one_month_return data stock_sector)
    !! key
  = sector_returns_1m data !! key.
Proof.
  intros Hk. unfold macro_collector._collect_sectors. cbn [sector_returns_1m].
  rewrite sector_returns_lookup.
  destruct (last (filter (λ p, p.2 = key) macro_collector.SECTOR_ETFS)) as [p|] eqn:E;
    [|done].
  exfalso. apply Hk. apply last_Some_elem_of in E.
  apply list_elem_of_filter in E as [<- E]. apply list_elem_of_fmap. by exists p.
Qed.

(** X19.  [_collect_sectors] files each one-month return under the sector's
    name, while the rotation score of the macro extractor looks the returns
    up under the ETF tickers.  On collected sector returns both averages of
    [_score_sector_rotation] are therefore [None]: the cyclical-versus-
    defensive score is never added, and the only sector score left is the
    one for the stock's sector against SPY. *)
Theorem collected_sectors_never_rotate (data : MacroData) (stock_sector : string) :
  sector_returns_1m data = ∅ →
  let macro := macro_collector._collect_sectors _one_month_return data stock_sector in
  (∀ etf_ticker sector_name, (etf_ticker, sector_name) ∈ macro_collector.SECTOR_ETFS →
     sector_returns_1m macro !! sector_name
     = Some (round (_one_month_return etf_ticker) 2) ∧
     sector_returns_1m macro !! etf_ticker = None) ∧
  macro_signal._avg_return (sector_returns_1m macro) ["XLU"; "XLP"; "XLV"] = None ∧
  macro_signal._avg_return (sector_returns_1m macro) ["XLK"; "XLY"; "XLI"; "XLF"] = None ∧
  (∀ scores, ∃ own,
     macro_signal._score_sector_rotation macro scores = scores ++ own ∧
     (length own ≤ 1)%nat ∧
     Forall (λ x, x ∈ [0.4; 0.2; -0.4; -0.2]) own).
Proof.
  intros Hempty. cbv zeta.
  assert (∀ key, key ∈ macro_collector.SECTOR_ETFS.*1 →
            sector_returns_1m
              (macro_collector._collect_sectors _one_month_return data stock_sector) !! key
            = None) as Hnone.
  { intros key Hkey. rewrite collected_sector_keys; [by rewrite Hempty|].
    revert Hkey. unfold macro_collector.SECTOR_ETFS. cbn.
    rewrite !elem_of_cons, !elem_of_nil.
    intros H. destruct_or!; try done; subst; intros H; destruct_or!; done. }
  assert (macro_signal._avg_return
            (sector_returns_1m
               (macro_collector._collect_sectors _one_month_return data stock_sector))
            ["XLU"; "XLP"; "XLV"] = None) as Hdef.
  { unfold macro_signal._avg_return. cbn.
    rewrite !Hnone; [done|..]; apply (bool_decide_unpack _); vm_compute; done. }
  assert (macro_signal._avg_return
            (sector_returns_1m
               (macro_collector._collect_sectors _one_month_return data stock_sector))
            ["XLK"; "XLY"; "XLI"; "XLF"] = None) as Hcyc.
  { unfold macro_signal._avg_return. cbn.
    rewrite !Hnone; [done|..]; apply (bool_decide_unpack _); vm_compute; done. }
  split_and!; try done.
  - intros etf name Hin. split; [by apply collected_sector_return|].
    apply Hnone. apply list_elem_of_fmap. by exists (etf, name).
  - intros scores. unfold macro_signal._score_sector_rotation.
    cbv zeta. rewrite Hdef.
    repeat case_decide;
      first [ exists []; rewrite app_nil_r; split_and!; [done|simpl; lia|constructor]
            | eexists [_]; split_and!; [done|simpl; lia|];
              apply Forall_singleton; set_solver ].
Qed.

(** X20.  [_resolve_sector_etf] returns the empty string or a ticker of
    [SECTOR_ETFS], and it maps every sector name of [SECTOR_ETFS] back to
    its ticker.  So the two defaults of the look-up in [_collect_sectors]
    are never used: for a resolved sector the stored difference is the
    rounded return of its ETF minus the return of SPY, rounded again, and
    for an unresolved one the field keeps its value. *)
Theorem resolved_sector_vs_spy (data : MacroData) (sector : string) :
  let etf_ticker := macro_collector._resolve_sector_etf sector in
  let macro := macro_collector._collect_sectors _one_month_return data sector in
  (etf_ticker = "" ∨ etf_ticker ∈ macro_collector.SECTOR_ETFS.*1) ∧
  Forall (λ p, macro_collector._resolve_sector_etf p.2 = p.1) macro_collector.SECTOR_ETFS ∧
  stock_sector macro = sector ∧
  sector_vs_spy macro
  = (if decide (etf_ticker = "") then sector_vs_spy data
     else round (round (_one_month_return etf_ticker) 2 - _one_month_return "SPY") 2).
Proof.
  cbv zeta. split_and!.
  - apply resolved_is_sector_etf.
  - repeat constructor.
  - done.
  - unfold macro_collector._collect_sectors at 1. cbn [sector_vs_spy].
    destruct (resolved_is_sector_etf
                (lower (macro_collector.strip sector))) as [Hr|Hr];
      fold (macro_collector._resolve_sector_etf sector) in Hr.
    + rewrite decide_False by (intros H; by apply H). by rewrite decide_True.
    + assert (macro_collector._resolve_sector_etf sector ≠ "") as Hne.
      { intros Heq. rewrite Heq in Hr. revert Hr. apply (bool_decide_unpack _).
        vm_compute. done. }
      rewrite decide_True by done. rewrite decide_False by done.
      apply sector_name_of_etf in Hr.
      pose proof (collected_sector_return data sector _ _ Hr) as Hl.
      unfold macro_collector._collect_sectors in Hl. cbn [sector_returns_1m] in Hl.
      by rewrite Hl.
Qed.

End collector_properties.

(** ** The relative strength index of the stock collector *)

Lemma iloc_neg_last (series : list Q) (x : Q) :
  last series = Some x → iloc_neg series 1 = Ok x.
Proof.
  intros Hl. unfold iloc_neg.
  assert (series ≠ []) as Hne by (by intros ->).
  assert (1 ≤ length series)%nat by (destruct series; [done|simpl; lia]).
  case_decide; [|lia]. rewrite last_lookup in Hl.
  replace (length series - 1)%nat with (Nat.pred (length series)) by lia.
  by rewrite Hl.
Qed.

Lemma ewm_mean_last (alpha x : Q) (series : list Q) :
  last (yfinance_collector.ewm_mean alpha (x :: series))
  = Some (foldl (λ y x, (1 - alpha) * y + alpha * x) x series).
Proof.
  unfold yfinance_collector.ewm_mean.
  revert x. induction series as [|z series IH]; intros x; [done|].
  simpl. rewrite <- (IH ((1 - alpha) * x + alpha * z)). simpl.
  by destruct series.
Qed.

Lemma ewm_nonneg (alpha y : Q) (series : list Q) :
  0 <= alpha ∧ alpha <= 1 → 0 <= y → Forall (λ x, 0 <= x) series →
  0 <= foldl (λ y x, (1 - alpha) * y + alpha * x) y series.
Proof.
  intros Ha Hy Hs. revert y Hy. induction Hs as [|x series Hx _ IH]; intros y Hy; [done|].
  simpl. apply IH. nra.
Qed.

Lemma ewm_zero (alpha y : Q) (series : list Q) :
  y == 0 → Forall (λ x, x == 0) series →
  foldl (λ y x, (1 - alpha) * y + alpha * x) y series == 0.
Proof.
  intros Hy Hs. revert y Hy. induction Hs as [|x series Hx _ IH]; intros y Hy; [done|].
  simpl. apply IH. rewrite Hy, Hx. ring.
Qed.

Lemma ewm_pos (alpha y : Q) (series : list Q) :
  0 < alpha ∧ alpha < 1 → 0 <= y → Forall (λ x, 0 <= x) series →
  0 < y ∨ Exists (λ x, 0 < x) series →
  0 < foldl (λ y x, (1 - alpha) * y + alpha * x) y series.
Proof.
  intros Ha Hy Hs. revert y Hy. induction Hs as [|x series Hx _ IH]; intros y Hy Hpos.
  - destruct Hpos as [?|?%Exists_nil]; done.
  - simpl. apply IH; [nra|].
    destruct Hpos as [Hpos|[Hpos|Hpos]%Exists_cons]; [left; nra|left; nra|by right].
Qed.

Lemma gain_nonneg (delta : list (option Q)) :
  Forall (λ x, 0 <= x) (yfinance_collector.where_ (λ d, 0 < d) delta).
Proof.
  unfold yfinance_collector.where_. apply Forall_fmap, Forall_true.
  intros [d|]; simpl; [case_decide|]; lra.
Qed.

Lemma loss_nonneg (delta : list (option Q)) :
  Forall (λ x, 0 <= x) (Qopp <$> yfinance_collector.where_ (λ d, d < 0) delta).
Proof.
  unfold yfinance_collector.where_. rewrite <- list_fmap_compose.
  apply Forall_fmap, Forall_true.
  intros [d|]; simpl; [case_decide|]; lra.
Qed.

Lemma gain_zero (delta : list (option Q)) :
  Forall (λ d, from_option (λ d, d <= 0) True d) delta →
  Forall (λ x, x == 0) (yfinance_collector.where_ (λ d, 0 < d) delta).
Proof.
  unfold yfinance_collector.where_. intros H. apply Forall_fmap.
  eapply Forall_impl; [exact H|].
  intros [d|]; simpl; [case_decide|]; intros; try reflexivity; lra.
Qed.

Lemma loss_zero (delta : list (option Q)) :
  Forall (λ d, from_option (λ d, 0 <= d) True d) delta →
  Forall (λ x, x == 0) (Qopp <$> yfinance_collector.where_ (λ d, d < 0) delta).
Proof.
  unfold yfinance_collector.where_. intros H. rewrite <- list_fmap_compose.
  apply Forall_fmap. eapply Forall_impl; [exact H|].
  intros [d|]; simpl; [case_decide|]; intros; try reflexivity; lra.
Qed.

Lemma loss_pos (delta : list (option Q)) :
  Exists (λ d, from_option (λ d, d < 0) False d) delta →
  Exists (λ x, 0 < x) (Qopp <$> yfinance_collector.where_ (λ d, d < 0) delta).
Proof.
  unfold yfinance_collector.where_. intros H. rewrite <- list_fmap_compose.
  apply Exists_fmap. eapply Exists_impl; [exact H|].
  intros [d|]; simpl; [case_decide|]; intros; try done; lra.
Qed.

Lemma where_None (cond : Q → Prop) `{∀ d, Decision (cond d)} (delta : list (option Q)) :
  yfinance_collector.where_ cond (None :: delta)
  = 0.0 :: yfinance_collector.where_ cond delta.
Proof. reflexivity. Qed.

Lemma rsi_value (close : list Q) (period : nat) :
  (0 < period < length close)%nat →
  ∃ c rest avg_gain avg_loss,
    close = c :: rest ∧
    let alpha := 1.0 / inject_Z (Z.of_nat period) in
    let gain := yfinance_collector.where_ (λ d, 0 < d) (yfinance_collector.diff_from c rest) in
    let loss :=
      Qopp <$> yfinance_collector.where_ (λ d, d < 0) (yfinance_collector.diff_from c rest) in
    avg_gain = foldl (λ y x, (1 - alpha) * y + alpha * x) 0.0 gain ∧
    avg_loss = foldl (λ y x, (1 - alpha) * y + alpha * x) (- 0.0) loss ∧
    yfinance_collector._compute_rsi close period
    = Ok (if decide (avg_loss == 0) then 100.0
          else 100.0 - (100.0 / (1.0 + avg_gain / avg_loss))).
Proof.
  intros [Hp Hl]. destruct close as [|c rest]; [simpl in Hl; lia|].
  eexists c, rest, _, _. split; [done|]. cbv zeta. split; [reflexivity|].
  split; [reflexivity|].
  unfold yfinance_collector._compute_rsi.
  rewrite decide_False by lia. rewrite decide_False by lia.
  unfold mbind, Result_bind. cbv zeta.
  unfold yfinance_collector.diff. rewrite !where_None, !fmap_cons.
  rewrite (iloc_neg_last _ _ (ewm_mean_last _ _ _)).
  case_decide; [done|].
  by rewrite (iloc_neg_last _ _ (ewm_mean_last _ _ _)).
Qed.

Lemma alpha_range (period : nat) :
  (0 < period)%nat →
  0 < 1.0 / inject_Z (Z.of_nat period) ∧ 1.0 / inject_Z (Z.of_nat period) <= 1 ∧
  ((2 ≤ period)%nat → 1.0 / inject_Z (Z.of_nat period) < 1).
Proof.
  intros Hp.
  assert (1 <= inject_Z (Z.of_nat period)) as H1.
  { change 1 with (inject_Z 1). rewrite <- Zle_Qle. lia. }
  split_and!.
  - apply Qlt_shift_div_l; lra.
  - apply Qle_shift_div_r; lra.
  - intros H2. assert (2 <= inject_Z (Z.of_nat period)).
    { change 2 with (inject_Z 2). rewrite <- Zle_Qle. lia. }
    apply Qlt_shift_div_r; lra.
Qed.

(** X21.  For a period of at least one, [_compute_rsi] returns a value in
    [0, 100]: 0.0 when there are too few closes, and 100.0 when no close is
    below its predecessor, a flat series included.  For a period of at least
    two, a series that never rises and falls somewhere has index 0, the same
    value as the too-few-closes case; the technical extractor takes such an
    index for missing and scores nothing for it. *)
Theorem compute_rsi_range (close : list Q) (period : nat) :
  (0 < period)%nat →
  ∃ rsi, yfinance_collector._compute_rsi close period = Ok rsi ∧
    (0 <= rsi ∧ rsi <= 100) ∧
    ((length close ≤ period)%nat → rsi = 0.0) ∧
    ((period < length close)%nat → never_falls close → rsi = 100.0) ∧
    ((2 ≤ period < length close)%nat → never_rises close → falls close →
       rsi == 0 ∧
       ∀ data scores, rsi_14 data = rsi →
         technical_signal._score_rsi data scores = scores).
Proof.
  intros Hp. destruct (decide (length close ≤ period)%nat) as [Hshort|Hlong].
  { exists 0.0. unfold yfinance_collector._compute_rsi.
    rewrite decide_True by lia. split_and!; try done; try lia. }
  destruct (rsi_value close period) as (c & rest & avg_gain & avg_loss & -> & Hv);
    [lia|].
  cbv zeta in Hv. destruct Hv as (Hg & Hl & ->).
  destruct (alpha_range period Hp) as (Ha0 & Ha1 & Ha2).
  assert (0 <= avg_gain) as Hgain.
  { rewrite Hg. apply ewm_nonneg; [lra|done|apply gain_nonneg]. }
  assert (0 <= avg_loss) as Hloss.
  { rewrite Hl. apply ewm_nonneg; [lra|done|apply loss_nonneg]. }
  eexists. split; [reflexivity|]. split_and!.
  - case_decide as Hz; [done|].
    assert (0 < avg_loss) as Hpos.
    { apply Qle_lt_or_eq in Hloss as [?|Heq]; [done|]. exfalso. apply Hz.
      by rewrite <- Heq. }
    assert (0 <= avg_gain / avg_loss) as Hrs by (apply Qle_shift_div_l; lra).
    assert (100.0 / (1.0 + avg_gain / avg_loss) <= 100) as Hq.
    { apply Qle_shift_div_r; lra. }
    lra.
  - case_decide as Hz; [done|].
    assert (0 < avg_loss) as Hpos.
    { apply Qle_lt_or_eq in Hloss as [?|Heq]; [done|]. exfalso. apply Hz.
      by rewrite <- Heq. }
    assert (0 <= avg_gain / avg_loss) as Hrs by (apply Qle_shift_div_l; lra).
    assert (0 < 100.0 / (1.0 + avg_gain / avg_loss)) as Hq.
    { apply Qlt_shift_div_l; lra. }
    lra.
  - intros ?. lia.
  - intros _ Hnf. rewrite decide_True; [done|].
    rewrite Hl. apply ewm_zero; [done|]. apply loss_zero.
    unfold never_falls, yfinance_collector.diff in Hnf. by apply Forall_cons in Hnf as [_ ?].
  - intros [H2 _] Hnr Hf.
    unfold never_rises, yfinance_collector.diff in Hnr. apply Forall_cons in Hnr as [_ Hnr].
    unfold falls, yfinance_collector.diff in Hf. apply Exists_cons in Hf as [[]|Hf].
    assert (avg_gain == 0) as Hg0.
    { rewrite Hg. apply ewm_zero; [done|]. by apply gain_zero. }
    assert (0 < avg_loss) as Hpos.
    { rewrite Hl. apply ewm_pos; [split; [lra|auto]|done|apply loss_nonneg|].
      right. by apply loss_pos. }
    rewrite decide_False by lra.
    assert (100.0 - 100.0 / (1.0 + avg_gain / avg_loss) == 0) as Hr.
    { rewrite Hg0. field. lra. }
    split; [done|].
    intros data scores Hrsi. unfold technical_signal._score_rsi.
    rewrite decide_True; [done|]. rewrite Hrsi, Hr. done.
Qed.

(** ** Moving averages *)

Lemma sum_pos (xs : list Q) :
  Forall (λ x, 0 < x) xs → xs ≠ [] → 0 < sum xs.
Proof.
  induction 1 as [|x xs Hx Hxs IH]; [done|]. intros _. rewrite sum_cons.
  destruct xs as [|y xs]; [vm_compute sum; lra|].
  assert (0 < sum (y :: xs)) by (by apply IH). lra.
Qed.

Lemma sum_bounds (lo hi : Q) (xs : list Q) :
  Forall (λ x, lo <= x ∧ x <= hi) xs →
  lo * inject_Z (Z.of_nat (length xs)) <= sum xs ∧
  sum xs <= hi * inject_Z (Z.of_nat (length xs)).
Proof.
  induction 1 as [|x xs [Hx1 Hx2] _ [IH1 IH2]].
  - change (sum []) with 0. change (inject_Z (Z.of_nat (@length Q []))) with 0. lra.
  - rewrite sum_cons. simpl length. rewrite Nat2Z.inj_succ. unfold Z.succ.
    rewrite inject_Z_plus. change (inject_Z 1) with 1.
    revert IH1 IH2. generalize (inject_Z (Z.of_nat (length xs))) (sum xs).
    intros n t IH1 IH2. split; nra.
Qed.

(** X22.  For a positive window, [_moving_average] is 0.0 when there are
    fewer closes than the window and otherwise the mean of the last
    [window] closes, which lies between any bounds of those closes.  On
    positive prices the average is therefore positive exactly when the
    history is long enough, so the extractors' test [ma > 0] means that the
    average is available. *)
Theorem moving_average_available (close : list Q) (window : nat) :
  (0 < window)%nat →
  ((length close < window)%nat → yfinance_collector._moving_average close window = 0.0) ∧
  ((window ≤ length close)%nat →
     yfinance_collector._moving_average close window
     = sum (drop (length close - window) close) / inject_Z (Z.of_nat window)) ∧
  (∀ lo hi, Forall (λ x, lo <= x ∧ x <= hi) close → (window ≤ length close)%nat →
     lo <= yfinance_collector._moving_average close window ∧
     yfinance_collector._moving_average close window <= hi) ∧
  (Forall (λ x, 0 < x) close →
     (0 < yfinance_collector._moving_average close window ↔ (window ≤ length close)%nat)).
Proof.
  intros Hw.
  assert (0 < inject_Z (Z.of_nat window)) as Hpos.
  { change 0 with (inject_Z 0). rewrite <- Zlt_Qlt. lia. }
  assert ((window ≤ length close)%nat →
          yfinance_collector._moving_average close window
          = sum (drop (length close - window) close) / inject_Z (Z.of_nat window)) as Hlong.
  { intros Hl. unfold yfinance_collector._moving_average. rewrite decide_False by lia.
    unfold mean, tail_rows. rewrite length_drop.
    by replace (length close - (length close - window))%nat with window by lia. }
  split_and!.
  - intros Hl. unfold yfinance_collector._moving_average. by rewrite decide_True.
  - done.
  - intros lo hi Hb Hl. rewrite (Hlong Hl).
    assert (Forall (λ x, lo <= x ∧ x <= hi) (drop (length close - window) close)) as Hd.
    { eapply Forall_drop. done. }
    destruct (sum_bounds lo hi _ Hd) as [H1 H2]. rewrite length_drop in H1, H2.
    replace (length close - (length close - window))%nat with window in H1, H2 by lia.
    split; [apply Qle_shift_div_l | apply Qle_shift_div_r]; done.
  - intros Hp. split.
    + intros Hma. destruct (decide (window ≤ length close)%nat) as [?|Hn]; [done|].
      exfalso. unfold yfinance_collector._moving_average in Hma.
      rewrite decide_True in Hma by lia. lra.
    + intros Hl. rewrite (Hlong Hl). apply Qlt_shift_div_l; [done|].
      rewrite Qmult_0_l. apply sum_pos; [by apply Forall_drop|].
      intros Hnil. apply (f_equal length) in Hnil. rewrite length_drop in Hnil.
      simpl in Hnil. lia.
Qed.

(** ** Importance labels and their weights *)

(** X23.  The label that [_map_importance] gives to a scraped event is
    always a key of the collector's [_IMPORTANCE_WEIGHTS], so the default
    weight is never used for such an item; a numeric importance decides the
    label whatever the category, and a larger one never gets a smaller
    weight. *)
Theorem map_importance_weighted (raw_importance : option Z) (category : string) :
  let weight label := news_collector.get news_collector._IMPORTANCE_WEIGHTS label 1.0 in
  let label := bubbleseek_scraper._map_importance raw_importance category in
  label ∈ news_collector._IMPORTANCE_WEIGHTS.*1 ∧
  (∀ default, news_collector.get news_collector._IMPORTANCE_WEIGHTS label default
              = weight label) ∧
  (∀ raw other, raw_importance = Some raw →
     bubbleseek_scraper._map_importance (Some raw) other = label) ∧
  (∀ raw raw' other, raw_importance = Some raw → (raw ≤ raw')%Z →
     weight label <= weight (bubbleseek_scraper._map_importance (Some raw') other)).
Proof.
  cbv zeta. unfold bubbleseek_scraper._map_importance.
  split_and!.
  - destruct raw_importance; repeat case_decide; set_solver.
  - intros default. destruct raw_importance; repeat case_decide; reflexivity.
  - by intros raw other ->.
  - intros raw raw' other -> Hle.
    repeat case_decide; try lia; vm_compute; discriminate.
Qed.

(** * Witnesses: the theorems at concrete inputs *)


Lemma consensus_strength_range_witness :
  nonneg_strength scenario_09_02 ∧
  0 <= consensus_strength (score_overall scenario_09_02 []) ∧
  consensus_strength (score_overall scenario_09_02 []) <= 1.
Proof.
  split; [exact scenario_09_02_nonneg|].
  apply (consensus_strength_range scenario_09_02 [] scenario_09_02_nonneg).
Defined.

(** The extractors of this development on the default macro and news
    snapshots and a price frame without its [Close] column: the momentum
    extractor raises, the other seven return. *)
Lemma extract_all_signals_isolates_failures_witness :
  well_named (runner.signals (R := limited_data)) ∧
  name <$> runner._extract_all_signals (runner.signals (R := limited_data))
             no_close_column default_macro default_news
  = categories.
Proof.
  split; [exact signals_well_named|].
  apply (extract_all_signals_isolates_failures (runner.signals (R := limited_data))
           no_close_column default_macro default_news signals_well_named).
Defined.

Lemma detect_material_opposition_witness :
  smart_money_divergence (λ _, "") ∈ detect (insider_vs_valuation (λ _, "")) ∧
  direction (signal_a (smart_money_divergence (λ _, "")))
  ≠ direction (signal_b (smart_money_divergence (λ _, ""))).
Proof.
  assert (Hin : smart_money_divergence (λ _, "") ∈ detect (insider_vs_valuation (λ _, ""))).
  { assert (detect (insider_vs_valuation (λ _, "")) = [smart_money_divergence (λ _, "")])
      as -> by (vm_compute; reflexivity).
    left. }
  split; [exact Hin|].
  destruct (proj1 (detect_material_opposition (insider_vs_valuation (λ _, ""))) _ Hin)
    as (r & _ & _ & _ & _ & _ & _ & Hne & _).
  exact Hne.
Defined.



Lemma interpret_idea_cases_witness :
  (consensus_direction (score_overall scenario_09_02 []) = Consensus.bullish ∧
   0.7 < consensus_strength (score_overall scenario_09_02 [])) ∧
  continuous_monitor._interpret_idea (score_overall scenario_09_02 [])
  = trend_following_message Consensus.bullish.
Proof.
  assert (H : consensus_direction (score_overall scenario_09_02 []) = Consensus.bullish ∧
              0.7 < consensus_strength (score_overall scenario_09_02 [])).
  { split; vm_compute; reflexivity. }
  split; [exact H|].
  destruct (interpret_idea_cases (score_overall scenario_09_02 []))
    as (_ & _ & [_ Htrend] & _).
  apply Htrend. split_and!.
  - intros [Ha _]. vm_compute in Ha. discriminate Ha.
  - intros Ha. vm_compute in Ha. discriminate Ha.
  - left. exact (proj1 H).
  - exact (proj2 H).
Defined.


Lemma detect_permutation_witness :
  NoDup (name <$> insider_vs_valuation (λ _, "")) ∧
  insider_vs_valuation (λ _, "") ≡ₚ reverse (insider_vs_valuation (λ _, "")) ∧
  detect (insider_vs_valuation (λ _, ""))
  = detect (reverse (insider_vs_valuation (λ _, ""))).
Proof.
  assert (H1 : NoDup (name <$> insider_vs_valuation (λ _, ""))).
  { apply (bool_decide_unpack _). vm_compute. exact I. }
  assert (H2 : insider_vs_valuation (λ _, "") ≡ₚ reverse (insider_vs_valuation (λ _, ""))).
  { symmetry. apply reverse_Permutation. }
  split; [exact H1|]. split; [exact H2|].
  exact (detect_permutation _ _ H1 H2).
Defined.

Lemma detect_needs_both_sides_witness :
  (∀ s, s ∈ lone_bull → direction s ≠ bearish) ∧ detect lone_bull = [].
Proof.
  assert (H : ∀ s, s ∈ lone_bull → direction s ≠ bearish).
  { intros s Hs. apply list_elem_of_singleton in Hs. rewrite Hs. discriminate. }
  split; [exact H|].
  exact (detect_needs_both_sides lone_bull (or_intror H)).
Defined.

Lemma consensus_symmetric_witness :
  nonneg_strength scenario_09_02 ∧
  consensus_direction (score_overall (flip_signal <$> scenario_09_02) [])
  = Consensus.bearish.
Proof.
  split; [exact scenario_09_02_nonneg|].
  rewrite (proj1 (consensus_symmetric scenario_09_02 [] scenario_09_02_nonneg)).
  vm_compute. reflexivity.
Defined.

Lemma mixed_strength_at_least_087_witness :
  nonneg_strength balanced ∧
  consensus_direction (score_overall balanced []) = Consensus.mixed ∧
  0.87 <= consensus_strength (score_overall balanced []).
Proof.
  assert (H1 : nonneg_strength balanced).
  { intros s Hs. unfold balanced in Hs.
    apply elem_of_cons in Hs as [->|Hs]; [vm_compute; discriminate|].
    apply list_elem_of_singleton in Hs. rewrite Hs. vm_compute. discriminate. }
  assert (H2 : consensus_direction (score_overall balanced []) = Consensus.mixed).
  { vm_compute. reflexivity. }
  split; [exact H1|]. split; [exact H2|].
  exact (proj1 (mixed_strength_at_least_087 balanced [] H1 H2)).
Defined.

Lemma momentum_raises_iff_close_missing_witness :
  (∀ h, history_30d no_close_column = Some h → rectangular h) ∧
  momentum_signal.extract (R := limited_data) no_close_column = Raise "'Close'".
Proof.
  assert (H : ∀ h, history_30d no_close_column = Some h → rectangular h).
  { intros h [= <-] col series Hl. simpl in Hl.
    apply lookup_singleton_Some in Hl as [_ <-]. reflexivity. }
  split; [exact H|].
  destruct (momentum_raises_iff_close_missing (R := limited_data)
              no_close_column default_macro default_news H) as [[Hraise _] _].
  apply Hraise. eexists. split; [reflexivity|]. split; [simpl; lia|reflexivity].
Defined.

Lemma collected_sectors_never_rotate_witness :
  sector_returns_1m default_macro = ∅ ∧
  macro_signal._avg_return
    (sector_returns_1m (macro_collector._collect_sectors flat_market default_macro
                          "Technology"))
    ["XLK"; "XLY"; "XLI"; "XLF"] = None.
Proof.
  split; [reflexivity|].
  destruct (collected_sectors_never_rotate flat_market default_macro "Technology" eq_refl)
    as (_ & _ & H & _).
  exact H.
Defined.

Lemma compute_rsi_range_witness :
  (0 < 14)%nat ∧
  ∃ rsi, yfinance_collector._compute_rsi falling_closes 14 = Ok rsi ∧ rsi == 0.
Proof.
  assert (H : (0 < 14)%nat) by lia.
  split; [exact H|].
  destruct (compute_rsi_range falling_closes 14 H) as (rsi & Hr & _ & _ & _ & Hf).
  exists rsi. split; [exact Hr|].
  apply Hf.
  - simpl. lia.
  - unfold never_rises. simpl. repeat constructor; simpl; vm_compute; discriminate.
  - unfold falls. simpl. apply Exists_cons_tl, Exists_cons_hd. vm_compute. reflexivity.
Defined.

Lemma moving_average_available_witness :
  (0 < 2)%nat ∧ yfinance_collector._moving_average [100] 2 = 0.0.
Proof.
  assert (H : (0 < 2)%nat) by lia.
  split; [exact H|].
  apply (moving_average_available [100] 2 H). simpl. lia.
Defined.
